(** * uptime-history: power-state timeline and work sessions

    A shallow embedding of [main.go]: the event normaliser
    ([deduplicateEvents], the sort-then-deduplicate tail of
    [getSystemEvents]), the boot-interval extractor (the first loop of
    [getSystemEvents]), the session reconstructor ([calculateSessions])
    and the aggregate computed by [displaySummary].

    Conventions.
    - [time.Time] is an absolute instant, a number of nanoseconds on the
      integer line ([Z]); the values compared in [main.go] never carry a
      monotonic clock reading on both sides, so [Before] and [Sub] are the
      wall-clock ones.
    - [time.Duration] is Go's [int64] count of nanoseconds: [Time.Sub]
      saturates at the two ends of the range, [+=] on durations wraps.
    - Event and session kinds are Go strings, as in the source. *)

From Stdlib Require Import ZArith List String Ascii Bool Lia.
From Stdlib Require Import Sorted Permutation.
Import ListNotations.

Local Open Scope Z_scope.

(** ** Go's [time] package, as far as [main.go] uses it *)

Module time.

Definition Time := Z.
Definition Duration := Z.

Definition minDuration : Duration := - 2 ^ 63.
Definition maxDuration : Duration := 2 ^ 63 - 1.

Definition Nanosecond : Duration := 1.
Definition Second : Duration := 1000000000 * Nanosecond.
Definition Minute : Duration := 60 * Second.
Definition Hour : Duration := 60 * Minute.

(** [int64] wrap-around, for arithmetic on [Duration]. *)
Definition wrap64 (z : Z) : Duration := (z + 2 ^ 63) mod 2 ^ 64 - 2 ^ 63.

Definition inRange (d : Z) : Prop := minDuration <= d <= maxDuration.

(** [t.Before(u)] *)
Definition Before (t u : Time) : bool := t <? u.

(** [t.Add(d)] *)
Definition Add (t : Time) (d : Duration) : Time := t + d.

(** [t.Sub(u)]: the difference, or [minDuration]/[maxDuration] when
    it does not fit a [Duration]. *)
Definition Sub (t u : Time) : Duration :=
  let d := t - u in
  if d <? minDuration then minDuration
  else if maxDuration <? d then maxDuration
  else d.

End time.

(** ** Data model *)

Record Event := mkEvent {
  Timestamp : time.Time;
  EType : string
}.

Record Session := mkSession {
  Start : time.Time;
  End_ : time.Time;
  Duration : time.Duration;
  SType : string
}.

Notation "a +++ b" := (String.append a b) (at level 60, right associativity).

(** ** Session reconstructor: [calculateSessions] *)

(** The variables the loop of [calculateSessions] carries: the slice
    [sessions], the pointer [sessionStart] ([nil] is [None]; the loop takes
    the address of a copy of the event, fresh at each iteration) and
    [sessionType]. *)
Record LoopState := mkLoopState {
  sessions : list Session;
  sessionStart : option Event;
  sessionType : string
}.

Definition initState : LoopState :=
  {| sessions := []; sessionStart := None; sessionType := "" |}.

(** [case "boot", "resume":] *)
Definition isOpener (t : string) : bool :=
  (t =? "boot")%string || (t =? "resume")%string.

(** [case "shutdown", "suspend", "hibernate":] *)
Definition isCloser (t : string) : bool :=
  (t =? "shutdown")%string || (t =? "suspend")%string || (t =? "hibernate")%string.

(** The inner [switch] that computes [endType]. *)
Definition endTypeOf (t : string) : string :=
  if (t =? "shutdown")%string then "shutdown"
  else if (t =? "suspend")%string then "suspend"
  else if (t =? "hibernate")%string then "hibernate"
  else "".

(** One iteration of the [for] loop. *)
Definition step (st : LoopState) (event : Event) : LoopState :=
  if isOpener (EType event) then
    {| sessions :=
         match sessionStart st with
         | Some opened =>
             sessions st ++
             [ {| Start := Timestamp opened;
                  End_ := Timestamp event;
                  Duration := time.Sub (Timestamp event) (Timestamp opened);
                  SType := sessionType st +++ " → " +++ EType event |} ]
         | None => sessions st
         end;
       sessionStart := Some event;
       sessionType := if (EType event =? "boot")%string then "boot" else "resume" |}
  else if isCloser (EType event) then
    match sessionStart st with
    | Some opened =>
        {| sessions :=
             sessions st ++
             [ {| Start := Timestamp opened;
                  End_ := Timestamp event;
                  Duration := time.Sub (Timestamp event) (Timestamp opened);
                  SType := sessionType st +++ " → " +++ endTypeOf (EType event) |} ];
           sessionStart := None;
           sessionType := "" |}
    | None => st
    end
  else st.

(** The state after the loop has consumed [events]. *)
Definition loop (events : list Event) : LoopState :=
  fold_left step events initState.

(** The [if sessionStart != nil] after the loop; [now] is what
    [time.Now()] returns there. *)
Definition finish (now : time.Time) (st : LoopState) : list Session :=
  match sessionStart st with
  | Some opened =>
      sessions st ++
      [ {| Start := Timestamp opened;
           End_ := now;
           Duration := time.Sub now (Timestamp opened);
           SType := sessionType st +++ " → (still active)" |} ]
  | None => sessions st
  end.

Definition calculateSessions (now : time.Time) (events : list Event) : list Session :=
  finish now (loop events).

(** [strings.HasSuffix], to recognise a label by its ending. *)
Definition HasSuffix (s suffix : string) : bool :=
  (String.length suffix <=? String.length s)%nat
  && (substring (String.length s - String.length suffix) (String.length suffix) s
      =? suffix)%string.

(** A session carries the "(still active)" label. *)
Definition stillActive (s : Session) : bool :=
  HasSuffix (SType s) "(still active)".

(** A session closed by an opener: its label ends in the kind of a Boot or
    Resume event. *)
Definition isAnomaly (s : Session) : bool :=
  HasSuffix (SType s) " → boot" || HasSuffix (SType s) " → resume".

(** Consecutive sessions do not overlap, and an anomaly session ends where
    the next one starts. *)
Definition follows (a b : Session) : Prop :=
  End_ a <= Start b /\ (isAnomaly a = true -> End_ a = Start b).

(** ** Event normaliser: [deduplicateEvents] *)

(** The test of the [if] in the loop of [deduplicateEvents]: same kind, and
    [currentEvent.Timestamp.Sub(lastEvent.Timestamp) < 2*time.Minute]. *)
Definition isRepeat (lastEvent currentEvent : Event) : bool :=
  (EType currentEvent =? EType lastEvent)%string
  && (time.Sub (Timestamp currentEvent) (Timestamp lastEvent) <? 2 * time.Minute).

(** One iteration: [lastEvent] is [result[len(result)-1]]; [result] is never
    empty here, the default of [last] is not used. *)
Definition dedupStep (result : list Event) (currentEvent : Event) : list Event :=
  let lastEvent := last result currentEvent in
  if isRepeat lastEvent currentEvent then result
  else result ++ [currentEvent].

Definition deduplicateEvents (events : list Event) : list Event :=
  match events with
  | [] => []
  | first :: rest => fold_left dedupStep rest [first]
  end.

(** Deduplication as the specification words it: "within 2 minutes" is a
    distance between the two instants (taken strictly, as the code's [<]
    is), and an event is dropped exactly when it has the kind of the
    previous retained event and lies within that distance of it. *)
Definition within2Minutes (t u : time.Time) : bool :=
  Z.abs (t - u) <? 2 * time.Minute.

Definition claimedRepeat (retained e : Event) : bool :=
  (EType e =? EType retained)%string
  && within2Minutes (Timestamp e) (Timestamp retained).

Fixpoint scanFrom (repeat : Event -> Event -> bool)
    (retained : Event) (l : list Event) : list Event :=
  match l with
  | [] => []
  | e :: l' =>
      if repeat retained e then scanFrom repeat retained l'
      else e :: scanFrom repeat e l'
  end.

Definition dedupAsClaimed (events : list Event) : list Event :=
  match events with
  | [] => []
  | first :: rest => first :: scanFrom claimedRepeat first rest
  end.

(** Non-decreasing by timestamp, adjacent pairs and index form. *)
Definition tsLe (a b : Event) : Prop := Timestamp a <= Timestamp b.

Definition chronological (events : list Event) : Prop :=
  forall i a b,
    nth_error events i = Some a ->
    nth_error events (S i) = Some b ->
    Timestamp a <= Timestamp b.

(** ** [sort.Slice] followed by [deduplicateEvents], the tail of
    [getSystemEvents] *)

(** The [less] closure handed to [sort.Slice]. *)
Definition byTimestamp (a b : Event) : bool :=
  time.Before (Timestamp a) (Timestamp b).

(** What [sort.Slice] promises for a [less] that is a strict weak order:
    the slice is rearranged so that no element is [less] than one before
    it. The library makes no promise about the order of ties. *)
Definition sortsSlices
    (sortSlice : (Event -> Event -> bool) -> list Event -> list Event) : Prop :=
  forall less : Event -> Event -> bool,
    (forall a b, less a b = true -> less b a = false) ->
    (forall a b c, less b a = false -> less c b = false -> less c a = false) ->
    forall l,
      Permutation l (sortSlice less l) /\
      StronglySorted (fun a b => less b a = false) (sortSlice less l).

Section Normalizer.

Variable sortSlice : (Event -> Event -> bool) -> list Event -> list Event.

Definition normalize (events : list Event) : list Event :=
  deduplicateEvents (sortSlice byTimestamp events).

End Normalizer.

(** An insertion sort, one function that meets [sortsSlices]. *)
Fixpoint insertBy (less : Event -> Event -> bool) (x : Event) (l : list Event)
    : list Event :=
  match l with
  | [] => [x]
  | y :: l' => if less x y then x :: y :: l' else y :: insertBy less x l'
  end.

Definition insertionSort (less : Event -> Event -> bool) (l : list Event)
    : list Event :=
  fold_right (insertBy less) [] l.

(** ** Boot-interval extractor: the first loop of [getSystemEvents] *)

(** *** The two library calls on the line, on bytes

    The classes of the pattern are ASCII only ([\w] is [[0-9A-Za-z_]], [\d]
    is [[0-9]]), so matching bytes and matching runes agree. *)

Definition charIn (lo hi c : ascii) : bool :=
  (nat_of_ascii lo <=? nat_of_ascii c)%nat && (nat_of_ascii c <=? nat_of_ascii hi)%nat.

Definition isDigit (c : ascii) : bool := charIn "0" "9" c.

Definition isWord (c : ascii) : bool :=
  isDigit c || charIn "A" "Z" c || charIn "a" "z" c || Ascii.eqb c "_".

Definition space : ascii := " ".

(** [strings.SplitN(s, sep, n)] for a one-byte separator and [n >= 0]:
    at most [n] pieces, the last one the unsplit remainder. *)
Fixpoint cut (sep : ascii) (s : string) : option (string * string) :=
  match s with
  | EmptyString => None
  | String c s' =>
      if Ascii.eqb c sep then Some (EmptyString, s')
      else match cut sep s' with
           | Some (a, b) => Some (String c a, b)
           | None => None
           end
  end.

Fixpoint SplitN (s : string) (sep : ascii) (n : nat) : list string :=
  match n with
  | O => []
  | S O => [s]
  | S n' =>
      match cut sep s with
      | Some (a, b) => a :: SplitN b sep n'
      | None => [s]
      end
  end.

(** The pattern [(\w{3} \d{4}-\d{2}-\d{2} \d{2}:\d{2}:\d{2} \w+)]: a
    sequence of one-byte items, then a greedy, non-empty run of [\w]. *)
Inductive item := ItW | ItD | ItC (c : ascii).

Definition accepts (it : item) (c : ascii) : bool :=
  match it with
  | ItW => isWord c
  | ItD => isDigit c
  | ItC c' => Ascii.eqb c c'
  end.

Definition dateItems : list item :=
  [ ItW; ItW; ItW; ItC space;
    ItD; ItD; ItD; ItD; ItC "-"; ItD; ItD; ItC "-"; ItD; ItD; ItC space;
    ItD; ItD; ItC ":"; ItD; ItD; ItC ":"; ItD; ItD; ItC space ]%char.

(** Match the items at the start of [s]: the matched text and what follows. *)
Fixpoint matchItems (p : list item) (s : string) : option (string * string) :=
  match p with
  | [] => Some (EmptyString, s)
  | it :: p' =>
      match s with
      | EmptyString => None
      | String c s' =>
          if accepts it c then
            match matchItems p' s' with
            | Some (m, r) => Some (String c m, r)
            | None => None
            end
          else None
      end
  end.

(** The longest run of [\w] at the start of [s]. *)
Fixpoint spanWord (s : string) : string * string :=
  match s with
  | EmptyString => (EmptyString, EmptyString)
  | String c s' =>
      if isWord c then let (w, r) := spanWord s' in (String c w, r)
      else (EmptyString, s)
  end.

(** A match of the whole pattern anchored at the start of [s]. *)
Definition matchDateAt (s : string) : option (string * string) :=
  match matchItems dateItems s with
  | Some (m, r) =>
      match spanWord r with
      | (EmptyString, _) => None
      | (w, rest) => Some (m +++ w, rest)
      end
  | None => None
  end.

(** [dateRegex.FindAllString(line, -1)]: the successive non-overlapping
    matches, leftmost first; the search resumes where a match ended. Each
    round consumes a byte, so [String.length line] rounds are enough. *)
Fixpoint findAllFrom (fuel : nat) (s : string) : list string :=
  match fuel with
  | O => []
  | S fuel' =>
      match s with
      | EmptyString => []
      | String _ s' =>
          match matchDateAt s with
          | Some (m, rest) => m :: findAllFrom fuel' rest
          | None => findAllFrom fuel' s'
          end
      end
  end.

Definition FindAllString (line : string) : list string :=
  findAllFrom (String.length line) line.

Definition bootLayout : string := "Mon 2006-01-02 15:04:05 MST".

Section Extractor.

(** [time.Parse(layout, value)]: [None] is a non-nil [err]. The instant a
    zone abbreviation denotes depends on the host's zone database, so the
    parser is a parameter of the extractor. *)
Variable Parse : string -> string -> option time.Time.

(** The body of the [for bootScanner.Scan()] loop on one line, as the
    events it appends; [now] is what [time.Now()] returns at line 120.
    ([bootInfos], which the body also appends to, is never read.) *)
Definition bootLineEvents (now : time.Time) (line : string) : list Event :=
  let parts := SplitN line space 3 in
  if (List.length parts <? 3)%nat then []
  else
    match FindAllString line with
    | d0 :: d1 :: _ =>
        match Parse bootLayout d0 with
        | None => []
        | Some startTime =>
            match Parse bootLayout d1 with
            | None => []
            | Some endTime =>
                {| Timestamp := startTime; EType := "boot" |} ::
                (if time.Before endTime (time.Add now (-1 * time.Minute))
                 then [ {| Timestamp := endTime; EType := "shutdown" |} ]
                 else [])
            end
        end
    | _ => []
    end.

(** The loop over the scanner's lines after the header; [clock i] is the
    reading of [time.Now()] while line [i] is processed. *)
Fixpoint bootEventsFrom (clock : nat -> time.Time) (i : nat) (lines : list string)
    : list Event :=
  match lines with
  | [] => []
  | line :: lines' =>
      bootLineEvents (clock i) line ++ bootEventsFrom clock (S i) lines'
  end.

(** [bootScanner.Scan() // Skip header], then the loop. *)
Definition bootEvents (clock : nat -> time.Time) (output : list string) : list Event :=
  bootEventsFrom clock 0 (tl output).

End Extractor.

(** ** [getSystemEvents]

    [bootOutput] is the outcome of [journalctl --list-boots], [None] when
    the command fails, else its lines; [suspendEvents] is what
    [detectSuspendResume("")] returns from its own two queries. *)
Definition getSystemEvents
    (sortSlice : (Event -> Event -> bool) -> list Event -> list Event)
    (Parse : string -> string -> option time.Time)
    (clock : nat -> time.Time)
    (bootOutput : option (list string))
    (suspendEvents : list Event) : option (list Event) :=
  match bootOutput with
  | None => None
  | Some output =>
      Some (normalize sortSlice (bootEvents Parse clock output ++ suspendEvents))
  end.

(** ** Summary aggregator: the values [displaySummary] computes *)

Record Summary := mkSummary {
  count : nat;
  totalDuration : time.Duration;
  avgDuration : time.Duration;
  longest : Session;
  shortest : Session
}.

(** [totalDuration += session.Duration], on [int64]. *)
Definition addDuration (acc : time.Duration) (s : Session) : time.Duration :=
  time.wrap64 (acc + Duration s).

(** The body of the [for _, session := range sessions[1:]] loop. *)
Definition pick (cand : Session * Session) (session : Session) : Session * Session :=
  let (lg, sh) := cand in
  (if Duration lg <? Duration session then session else lg,
   if Duration session <? Duration sh then session else sh).

(** [None]: the early [return] on an empty slice, nothing is computed. The
    division is Go's, truncated towards zero. *)
Definition displaySummary (sessions : list Session) : option Summary :=
  match sessions with
  | [] => None
  | s0 :: rest =>
      let total := fold_left addDuration sessions 0 in
      let avg := Z.quot total (Z.of_nat (List.length sessions)) in
      let (lg, sh) := fold_left pick rest (s0, s0) in
      Some {| count := List.length sessions;
              totalDuration := total;
              avgDuration := avg;
              longest := lg;
              shortest := sh |}
  end.

(** The sum of the durations as a number, without the [int64] bounds. *)
Definition sumDurations (l : list Session) : Z :=
  fold_right (fun s acc => Duration s + acc) 0 l.

(** [s] is the first session of [l] of largest (smallest) duration. *)
Definition firstMax (l : list Session) (s : Session) : Prop :=
  exists i, nth_error l i = Some s /\
    (forall x, In x l -> Duration x <= Duration s) /\
    (forall j x, (j < i)%nat -> nth_error l j = Some x -> Duration x < Duration s).

Definition firstMin (l : list Session) (s : Session) : Prop :=
  exists i, nth_error l i = Some s /\
    (forall x, In x l -> Duration s <= Duration x) /\
    (forall j x, (j < i)%nat -> nth_error l j = Some x -> Duration s < Duration x).

(** ** Counting separators, to relate the two library calls *)

Fixpoint countSpaces (s : string) : nat :=
  match s with
  | EmptyString => O
  | String c s' => ((if Ascii.eqb c space then 1 else 0) + countSpaces s')%nat
  end.

Definition spaceItems (p : list item) : nat :=
  List.length (filter (fun it => match it with
                                 | ItC c => Ascii.eqb c space
                                 | _ => false
                                 end) p).

(** ** Invariants of the loop of [calculateSessions] *)

(** While a session is open, [sessionType] is the kind of the event that
    opened it, a Boot or a Resume; while none is, it is empty. *)
Definition kindInv (st : LoopState) : Prop :=
  match sessionStart st with
  | Some opened => isOpener (EType opened) = true /\ sessionType st = EType opened
  | None => sessionType st = ""%string
  end.

(** A label the loop can write: the kind of an opener, " → ", the kind of
    an opener or of a closer. *)
Definition loopLabel (l : string) : Prop :=
  exists k t, isOpener k = true /\ (isOpener t = true \/ isCloser t = true) /\
              l = k +++ " → " +++ t.

Definition wellFormed (s : Session) : Prop :=
  Start s <= End_ s /\ 0 <= Duration s.

(** What holds of the loop's variables when [events] are still to come:
    the sessions so far are well formed and chained; the last of them ends
    no later than the open event and than every event to come, and if it is
    an anomaly session the machine is open exactly where it ends; the open
    event is no later than the events to come. *)
Record chainInv (st : LoopState) (events : list Event) : Prop := {
  inv_wf : Forall wellFormed (sessions st);
  inv_chain : Sorted follows (sessions st);
  inv_last : forall l' s, sessions st = l' ++ [s] ->
      Forall (fun e => End_ s <= Timestamp e) events /\
      match sessionStart st with
      | Some o => End_ s <= Timestamp o /\ (isAnomaly s = true -> End_ s = Timestamp o)
      | None => isAnomaly s = false
      end;
  inv_open : forall o, sessionStart st = Some o -> Forall (tsLe o) events;
  inv_kind : kindInv st
}.

(** ** Unit-activation extractor: [detectSuspendResume] *)

(** [strings.Contains(s, substr)] *)
Fixpoint Contains (s substr : string) : bool :=
  prefix substr s
  || match s with
     | EmptyString => false
     | String _ s' => Contains s' substr
     end.

(** The pattern
    [^(\d{4}-\d{2}-\d{2}T\d{2}:\d{2}:\d{2}[+-]\d{2}:\d{2})], a sequence of
    one-byte classes anchored at the start of the line. *)
Definition isSign (c : ascii) : bool := Ascii.eqb c "+" || Ascii.eqb c "-".

Definition lit (c' c : ascii) : bool := Ascii.eqb c c'.

Definition timestampClasses : list (ascii -> bool) :=
  [ isDigit; isDigit; isDigit; isDigit; lit "-"; isDigit; isDigit; lit "-";
    isDigit; isDigit; lit "T"; isDigit; isDigit; lit ":"; isDigit; isDigit;
    lit ":"; isDigit; isDigit; isSign; isDigit; isDigit; lit ":";
    isDigit; isDigit ]%char.

Fixpoint matchClasses (p : list (ascii -> bool)) (s : string)
    : option (string * string) :=
  match p with
  | [] => Some (EmptyString, s)
  | cl :: p' =>
      match s with
      | EmptyString => None
      | String c s' =>
          if cl c then
            match matchClasses p' s' with
            | Some (m, r) => Some (String c m, r)
            | None => None
            end
          else None
      end
  end.

(** [timestampRegex.FindStringSubmatch(line)]: nothing, or the match and
    its one group, which is the whole match. *)
Definition FindStringSubmatch (line : string) : list string :=
  match matchClasses timestampClasses line with
  | Some (m, _) => [m; m]
  | None => []
  end.

Definition isoLayout : string := "2006-01-02T15:04:05-07:00".

(** The body of either scanner loop of [detectSuspendResume] on one line.
    The two loops are the same code up to four strings: the phrase of the
    filter, the phrase and the kind of a start, the phrase of a finish
    (whose kind is "resume" in both). *)
Definition unitLineEvents (Parse : string -> string -> option time.Time)
    (filterPhrase startPhrase startKind finishPhrase : string)
    (line : string) : list Event :=
  if negb (Contains line filterPhrase) then []
  else
    match FindStringSubmatch line with
    | _ :: timestampStr :: _ =>
        match Parse isoLayout timestampStr with
        | None => []
        | Some timestamp =>
            let eventType := ""%string in
            let eventType := if Contains line startPhrase then startKind else eventType in
            let eventType := if Contains line finishPhrase then "resume"%string else eventType in
            if (eventType =? "")%string then []
            else [ {| Timestamp := timestamp; EType := eventType |} ]
        end
    | _ => []
    end.

Definition suspendLineEvents (Parse : string -> string -> option time.Time)
    : string -> list Event :=
  unitLineEvents Parse "System Suspend" "Starting System Suspend" "suspend"
                 "Finished System Suspend".

Definition hibernateLineEvents (Parse : string -> string -> option time.Time)
    : string -> list Event :=
  unitLineEvents Parse "System Hibernate" "Starting System Hibernate" "hibernate"
                 "Finished System Hibernate".

(** An output is [None] when the command failed or printed nothing
    ([err == nil && len(output) > 0] is false), else the scanner's lines.
    [bootID] only selects the command that is run. *)
Definition unitEvents (body : string -> list Event) (output : option (list string))
    : list Event :=
  match output with
  | Some lines => flat_map body lines
  | None => []
  end.

Definition detectSuspendResume (Parse : string -> string -> option time.Time)
    (suspendOutput hibernateOutput : option (list string)) : list Event :=
  unitEvents (suspendLineEvents Parse) suspendOutput
  ++ unitEvents (hibernateLineEvents Parse) hibernateOutput.

(** ** The pipeline: [getSystemEvents] on the three journal outputs, and
    [main] as the branch it ends in *)

Definition journalEvents
    (sortSlice : (Event -> Event -> bool) -> list Event -> list Event)
    (Parse : string -> string -> option time.Time)
    (clock : nat -> time.Time)
    (bootOutput suspendOutput hibernateOutput : option (list string))
    : option (list Event) :=
  getSystemEvents sortSlice Parse clock bootOutput
    (detectSuspendResume Parse suspendOutput hibernateOutput).

Inductive Outcome :=
| ExitError                       (* "Error: ...", [os.Exit(1)] *)
| NoEvents                        (* "No system events found." *)
| NoSessions                      (* "Cannot calculate work sessions." *)
| Displayed (sessions : list Session) (summary : option Summary).

Definition main
    (sortSlice : (Event -> Event -> bool) -> list Event -> list Event)
    (Parse : string -> string -> option time.Time)
    (clock : nat -> time.Time) (now : time.Time)
    (bootOutput suspendOutput hibernateOutput : option (list string)) : Outcome :=
  match journalEvents sortSlice Parse clock bootOutput suspendOutput hibernateOutput with
  | None => ExitError
  | Some events =>
      if (List.length events =? 0)%nat then NoEvents
      else
        let sessions := calculateSessions now events in
        if (List.length sessions =? 0)%nat then NoSessions
        else Displayed sessions (displaySummary sessions)
  end.

(** ** Vocabulary of the further properties *)

(** An event one of the two [case]s of the [switch] takes. *)
Definition consumed (e : Event) : bool :=
  isOpener (EType e) || isCloser (EType e).

Definition opens (e : Event) : bool := isOpener (EType e).

(** The labels [calculateSessions] can write. *)
Definition sessionLabels : list string :=
  [ "boot → boot"; "boot → resume"; "boot → shutdown"; "boot → suspend";
    "boot → hibernate"; "boot → (still active)";
    "resume → boot"; "resume → resume"; "resume → shutdown"; "resume → suspend";
    "resume → hibernate"; "resume → (still active)" ]%string.

(** [l1] is [l2] with some elements left out. *)
Inductive subseq {A : Type} : list A -> list A -> Prop :=
| subseq_nil : subseq [] []
| subseq_skip x l1 l2 : subseq l1 l2 -> subseq l1 (x :: l2)
| subseq_keep x l1 l2 : subseq l1 l2 -> subseq (x :: l1) (x :: l2).

(** A sequence of kinds with each run of equal kinds reduced to one. *)
Fixpoint collapse (l : list string) : list string :=
  match l with
  | [] => []
  | k :: l' =>
      match l' with
      | [] => [k]
      | k' :: _ => if (k =? k')%string then collapse l' else k :: collapse l'
      end
  end.

(** A stream in which opener and closer alternate, given as its pairs, and
    the session of one pair. *)
Definition pairEvents (pairs : list (Event * Event)) : list Event :=
  flat_map (fun p => [fst p; snd p]) pairs.

Definition pairSession (p : Event * Event) : Session :=
  {| Start := Timestamp (fst p);
     End_ := Timestamp (snd p);
     Duration := time.Sub (Timestamp (snd p)) (Timestamp (fst p));
     SType := EType (fst p) +++ " → " +++ EType (snd p) |}.

(** The body of the boot loop without its [len(parts) < 3] test. *)
Definition bootLineUnguarded (Parse : string -> string -> option time.Time)
    (now : time.Time) (line : string) : list Event :=
  match FindAllString line with
  | d0 :: d1 :: _ =>
      match Parse bootLayout d0 with
      | None => []
      | Some startTime =>
          match Parse bootLayout d1 with
          | None => []
          | Some endTime =>
              {| Timestamp := startTime; EType := "boot" |} ::
              (if time.Before endTime (time.Add now (-1 * time.Minute))
               then [ {| Timestamp := endTime; EType := "shutdown" |} ]
               else [])
          end
      end
  | _ => []
  end.

(** ** Scenario data *)

Definition at_ (h m : Z) : time.Time := h * time.Hour + m * time.Minute.

Definition boot8 : Event := {| Timestamp := at_ 8 0; EType := "boot" |}.
Definition resume9 : Event := {| Timestamp := at_ 9 0; EType := "resume" |}.
Definition suspend9 : Event := {| Timestamp := at_ 9 0; EType := "suspend" |}.
Definition suspend901 : Event := {| Timestamp := at_ 9 1; EType := "suspend" |}.
Definition shutdown18 : Event := {| Timestamp := at_ 18 0; EType := "shutdown" |}.

Definition bootRow : string :=
  "-1 abc123def Mon 2025-01-01 08:00:00 UTC Mon 2025-01-01 18:00:00 UTC".

(** [time.Parse] on the two phrases of [bootRow], instants counted from
    the midnight before them; every other phrase is rejected. *)
Definition scenarioParse (layout value : string) : option time.Time :=
  if (value =? "Mon 2025-01-01 08:00:00 UTC")%string then Some (at_ 8 0)
  else if (value =? "Mon 2025-01-01 18:00:00 UTC")%string then Some (at_ 18 0)
  else None.

Definition suspendRow : string :=
  "2025-01-01T09:00:00+00:00 host systemd[1]: Starting System Suspend...".

Definition resumeRow : string :=
  "2025-01-01T09:00:00+00:00 host systemd[1]: Finished System Suspend.".

(** [time.Parse] on the timestamp of the two rows above. *)
Definition unitParse (layout value : string) : option time.Time :=
  if (value =? "2025-01-01T09:00:00+00:00")%string then Some (at_ 9 0) else None.

(** * Properties *)

(** ** Lists: adjacent pairs *)

Section Adjacent.

Context {A : Type} (R : A -> A -> Prop).

Lemma Sorted_snoc (l : list A) (x : A) :
  Sorted R l ->
  (forall l' y, l = l' ++ [y] -> R y x) ->
  Sorted R (l ++ [x]).
Proof.
  induction l as [|a l IH]; intros Hs Hlast; simpl.
  - repeat constructor.
  - inversion Hs as [|? ? Hs' Hhd]; subst.
    constructor.
    + apply IH; [assumption|].
      intros l' y ->. apply (Hlast (a :: l')). reflexivity.
    + destruct l as [|b l]; simpl.
      * constructor. apply (Hlast []). reflexivity.
      * inversion Hhd; subst. constructor. assumption.
Qed.

Lemma Sorted_nth (l : list A) :
  Sorted R l ->
  forall i a b, nth_error l i = Some a -> nth_error l (S i) = Some b -> R a b.
Proof.
  induction 1 as [|x l Hs IH Hhd]; intros i a b Ha Hb.
  - destruct i; discriminate.
  - destruct i as [|i]; simpl in Ha, Hb.
    + injection Ha as <-. destruct l as [|y l]; [discriminate|].
      simpl in Hb. injection Hb as <-. inversion Hhd; assumption.
    + eapply IH; eassumption.
Qed.

Lemma nth_Sorted (l : list A) :
  (forall i a b, nth_error l i = Some a -> nth_error l (S i) = Some b -> R a b) ->
  Sorted R l.
Proof.
  induction l as [|x l IH]; intros H; constructor.
  - apply IH. intros i a b Ha Hb. apply (H (S i) a b); assumption.
  - destruct l as [|y l]; constructor.
    apply (H O x y); reflexivity.
Qed.

End Adjacent.

(** ** Strings: the kinds of the [switch] *)

Lemma isOpener_cases (t : string) :
  isOpener t = true -> t = "boot"%string \/ t = "resume"%string.
Proof.
  unfold isOpener. rewrite orb_true_iff, !String.eqb_eq. tauto.
Qed.

Lemma isCloser_cases (t : string) :
  isCloser t = true ->
  t = "shutdown"%string \/ t = "suspend"%string \/ t = "hibernate"%string.
Proof.
  unfold isCloser. rewrite !orb_true_iff, !String.eqb_eq. tauto.
Qed.

Lemma opener_not_closer (t : string) : isOpener t = true -> isCloser t = false.
Proof. intros [-> | ->]%isOpener_cases; reflexivity. Qed.

Lemma opener_kind (t : string) :
  isOpener t = true ->
  (if (t =? "boot")%string then "boot" else "resume")%string = t.
Proof. intros [-> | ->]%isOpener_cases; reflexivity. Qed.

Lemma closer_endType (t : string) : isCloser t = true -> endTypeOf t = t.
Proof. intros [-> | [-> | ->]]%isCloser_cases; reflexivity. Qed.

(** ** The loop of [calculateSessions] *)

Lemma loop_snoc (pre : list Event) (event : Event) :
  loop (pre ++ [event]) = step (loop pre) event.
Proof. unfold loop. rewrite fold_left_app. reflexivity. Qed.

Lemma step_kindInv (st : LoopState) (event : Event) :
  kindInv st -> kindInv (step st event).
Proof.
  destruct st as [ss o ty]. unfold kindInv, step; simpl. intros H.
  destruct (isOpener (EType event)) eqn:Ho; simpl.
  - split; [assumption | apply opener_kind; assumption].
  - destruct (isCloser (EType event)); [|assumption].
    destruct o; simpl; [reflexivity | assumption].
Qed.

Lemma loop_kindInv (events : list Event) : kindInv (loop events).
Proof.
  induction events as [|e pre IH] using rev_ind.
  - reflexivity.
  - rewrite loop_snoc. apply step_kindInv, IH.
Qed.

(** ** Transitions of the reconstructor *)

(** C1. In the loop of [calculateSessions], after any prefix [pre] of the
    events, a Boot or Resume event leaves the machine open on that event,
    with that event's kind. If a session was open (on [opened]), exactly one
    session is appended, from [opened]'s timestamp to the event's, labelled
    open kind, " → ", new kind; if none was, nothing is appended. *)
Theorem opener_transition (pre : list Event) (event : Event) :
  isOpener (EType event) = true ->
  let st := loop pre in
  let st' := loop (pre ++ [event]) in
  sessionStart st' = Some event /\
  sessionType st' = EType event /\
  match sessionStart st with
  | Some opened =>
      sessionType st = EType opened /\
      sessions st' =
        sessions st ++
        [ {| Start := Timestamp opened;
             End_ := Timestamp event;
             Duration := time.Sub (Timestamp event) (Timestamp opened);
             SType := EType opened +++ " → " +++ EType event |} ]
  | None => sessions st' = sessions st
  end.
Proof.
  intros Ho st st'. subst st'. rewrite loop_snoc. fold st.
  pose proof (loop_kindInv pre) as Hk. fold st in Hk.
  unfold step, kindInv in *. rewrite Ho. simpl.
  split; [reflexivity|]. split; [apply opener_kind; assumption|].
  destruct (sessionStart st) as [opened|].
  - destruct Hk as [_ Hk]. rewrite Hk. split; reflexivity.
  - reflexivity.
Qed.

Lemma opener_transition_witness :
  (isOpener (EType resume9) = true /\
   sessionStart (loop [boot8; resume9]) = Some resume9 /\
   sessionType (loop [boot8; resume9]) = "resume"%string /\
   sessions (loop [boot8; resume9]) =
     [ {| Start := at_ 8 0; End_ := at_ 9 0; Duration := time.Hour;
          SType := "boot → resume" |} ]) /\
  (isOpener (EType boot8) = true /\
   sessionStart (loop [boot8]) = Some boot8 /\
   sessions (loop [boot8]) = []).
Proof.
  split.
  - split; [reflexivity|].
    destruct (opener_transition [boot8] resume9 eq_refl) as (H1 & H2 & H3).
    split; [exact H1|]. split; [exact H2|]. exact (proj2 H3).
  - split; [reflexivity|].
    destruct (opener_transition [] boot8 eq_refl) as (H1 & H2 & H3).
    split; [exact H1 | exact H3].
Defined.

(** C2. After any prefix [pre], a Shutdown, Suspend or Hibernate event met
    while a session is open (on [opened]) appends exactly one session, from
    [opened]'s timestamp to the event's, labelled open kind, " → ", closer
    kind, and closes the machine; met while no session is open, it leaves
    the whole state as it was. *)
Theorem closer_transition (pre : list Event) (event : Event) :
  isCloser (EType event) = true ->
  let st := loop pre in
  let st' := loop (pre ++ [event]) in
  match sessionStart st with
  | Some opened =>
      sessionType st = EType opened /\
      sessions st' =
        sessions st ++
        [ {| Start := Timestamp opened;
             End_ := Timestamp event;
             Duration := time.Sub (Timestamp event) (Timestamp opened);
             SType := EType opened +++ " → " +++ EType event |} ] /\
      sessionStart st' = None
  | None => st' = st
  end.
Proof.
  intros Hc st st'. subst st'. rewrite loop_snoc. fold st.
  pose proof (loop_kindInv pre) as Hk. fold st in Hk.
  unfold step, kindInv in *.
  assert (Hno : isOpener (EType event) = false).
  { destruct (isOpener (EType event)) eqn:Ho; [|reflexivity].
    apply opener_not_closer in Ho. congruence. }
  rewrite Hno, Hc.
  destruct (sessionStart st) as [opened|].
  - destruct Hk as [_ Hk]. simpl.
    rewrite Hk, (closer_endType _ Hc). repeat split.
  - reflexivity.
Qed.

Lemma closer_transition_witness :
  (isCloser (EType shutdown18) = true /\
   sessions (loop [boot8; shutdown18]) =
     [ {| Start := at_ 8 0; End_ := at_ 18 0; Duration := 10 * time.Hour;
          SType := "boot → shutdown" |} ] /\
   sessionStart (loop [boot8; shutdown18]) = None) /\
  (isCloser (EType suspend9) = true /\
   loop [suspend9] = loop []).
Proof.
  split.
  - split; [reflexivity|].
    exact (proj2 (closer_transition [boot8] shutdown18 eq_refl)).
  - split; [reflexivity|].
    exact (closer_transition [] suspend9 eq_refl).
Defined.

(** ** Labels of the sessions the loop appends *)

Lemma loopLabel_stillActive (s : Session) :
  loopLabel (SType s) -> stillActive s = false.
Proof.
  unfold stillActive. intros (k & t & Hk & Ht & ->).
  apply isOpener_cases in Hk.
  destruct Ht as [Ht%isOpener_cases | Ht%isCloser_cases];
    intuition (subst; reflexivity).
Qed.

Lemma closerLabel_isAnomaly (s : Session) (k t : string) :
  isOpener k = true -> isCloser t = true ->
  SType s = k +++ " → " +++ t -> isAnomaly s = false.
Proof.
  unfold isAnomaly. intros Hk%isOpener_cases Ht%isCloser_cases ->.
  intuition (subst; reflexivity).
Qed.

Lemma step_labels (st : LoopState) (event : Event) :
  kindInv st ->
  Forall (fun s => loopLabel (SType s)) (sessions st) ->
  Forall (fun s => loopLabel (SType s)) (sessions (step st event)).
Proof.
  destruct st as [ss o ty]. unfold kindInv, step; simpl. intros Hk Hall.
  destruct (isOpener (EType event)) eqn:Ho; simpl.
  - destruct o as [opened|]; [|assumption].
    destruct Hk as [Hop ->].
    apply Forall_app; split; [assumption|]. constructor; [|constructor].
    exists (EType opened), (EType event). simpl. auto.
  - destruct (isCloser (EType event)) eqn:Hc; [|assumption].
    destruct o as [opened|]; simpl; [|assumption].
    destruct Hk as [Hop ->].
    apply Forall_app; split; [assumption|]. constructor; [|constructor].
    exists (EType opened), (EType event). simpl.
    rewrite (closer_endType _ Hc). auto.
Qed.

Lemma loop_labels (events : list Event) :
  Forall (fun s => loopLabel (SType s)) (sessions (loop events)).
Proof.
  induction events as [|e pre IH] using rev_ind.
  - constructor.
  - rewrite loop_snoc. apply step_labels; [apply loop_kindInv | exact IH].
Qed.

Lemma loop_not_stillActive (events : list Event) :
  Forall (fun s => stillActive s = false) (sessions (loop events)).
Proof.
  eapply Forall_impl; [|apply loop_labels].
  intros s. apply loopLabel_stillActive.
Qed.

Lemma filter_none {A : Type} (f : A -> bool) (l : list A) :
  Forall (fun x => f x = false) l -> filter f l = [].
Proof.
  induction 1 as [|x l Hx _ IH]; simpl; [reflexivity|].
  rewrite Hx. exact IH.
Qed.

Lemma stillActive_label (k : string) (s : Session) :
  isOpener k = true -> SType s = k +++ " → (still active)" -> stillActive s = true.
Proof.
  unfold stillActive. intros [-> | ->]%isOpener_cases ->; reflexivity.
Qed.

(** ** The still-active tail *)

(** C3. In the output of [calculateSessions], at most one session carries
    the "(still active)" label; a session that carries it is the last one,
    the loop ended with a session open, its start is the open timestamp and
    its end is [now]. Conversely, when the loop ends open, that session is
    appended after the loop's sessions; when it ends closed, none is. *)
Theorem still_active_tail (now : time.Time) (events : list Event) :
  let out := calculateSessions now events in
  (List.length (filter stillActive out) <= 1)%nat /\
  (forall i s,
      nth_error out i = Some s -> stillActive s = true ->
      S i = List.length out /\
      exists opened,
        sessionStart (loop events) = Some opened /\
        Start s = Timestamp opened /\ End_ s = now) /\
  (forall opened,
      sessionStart (loop events) = Some opened ->
      exists s,
        out = sessions (loop events) ++ [s] /\ stillActive s = true /\
        Start s = Timestamp opened /\ End_ s = now) /\
  (sessionStart (loop events) = None ->
   out = sessions (loop events) /\ filter stillActive out = []).
Proof.
  intros out. subst out. unfold calculateSessions, finish.
  pose proof (loop_not_stillActive events) as Hno.
  pose proof (loop_kindInv events) as Hk. unfold kindInv in Hk.
  destruct (sessionStart (loop events)) as [opened|] eqn:Hopen.
  - destruct Hk as [Hop Hty].
    set (sa := {| Start := Timestamp opened; End_ := now;
                  Duration := time.Sub now (Timestamp opened);
                  SType := sessionType (loop events) +++ " → (still active)" |}).
    assert (Hsa : stillActive sa = true).
    { apply (stillActive_label (EType opened)); [assumption|].
      simpl. rewrite Hty. reflexivity. }
    repeat split.
    + rewrite filter_app, (filter_none _ _ Hno). simpl. rewrite Hsa. simpl. lia.
    + destruct (Nat.lt_ge_cases i (List.length (sessions (loop events)))) as [Hlt|Hge].
      * rewrite nth_error_app1 in H by assumption.
        rewrite Forall_forall in Hno.
        apply nth_error_In, Hno in H. congruence.
      * rewrite nth_error_app2 in H by assumption.
        rewrite length_app. simpl.
        destruct (i - List.length (sessions (loop events)))%nat as [|n] eqn:Hd.
        -- lia.
        -- destruct n; discriminate.
    + exists opened. rewrite nth_error_app2 in H.
      * destruct (i - List.length (sessions (loop events)))%nat as [|n].
        -- injection H as <-. repeat split.
        -- destruct n; discriminate.
      * destruct (Nat.lt_ge_cases i (List.length (sessions (loop events)))) as [Hlt|Hge];
          [|assumption].
        rewrite nth_error_app1 in H by assumption.
        rewrite Forall_forall in Hno.
        apply nth_error_In, Hno in H. congruence.
    + intros o [= <-]. exists sa. repeat split. exact Hsa.
    + discriminate.
    + discriminate.
  - repeat split.
    + rewrite (filter_none _ _ Hno). simpl. lia.
    + rewrite Forall_forall in Hno. apply nth_error_In, Hno in H. congruence.
    + rewrite Forall_forall in Hno. apply nth_error_In, Hno in H. congruence.
    + discriminate.
    + apply filter_none, Hno.
Qed.

Lemma still_active_tail_witness :
  calculateSessions (at_ 10 0) [boot8; resume9] =
    [ {| Start := at_ 8 0; End_ := at_ 9 0; Duration := time.Hour;
         SType := "boot → resume" |};
      {| Start := at_ 9 0; End_ := at_ 10 0; Duration := time.Hour;
         SType := "resume → (still active)" |} ] /\
  (exists s,
      calculateSessions (at_ 10 0) [boot8; resume9] =
        sessions (loop [boot8; resume9]) ++ [s] /\
      stillActive s = true /\ Start s = Timestamp resume9 /\ End_ s = at_ 10 0) /\
  filter stillActive (calculateSessions (at_ 19 0) [boot8; shutdown18]) = [].
Proof.
  split; [reflexivity|]. split.
  - exact (proj1 (proj2 (proj2 (still_active_tail (at_ 10 0) [boot8; resume9])))
             resume9 eq_refl).
  - exact (proj2 (proj2 (proj2 (proj2 (still_active_tail (at_ 19 0) [boot8; shutdown18])))
                    eq_refl)).
Defined.

(** ** Arithmetic of [time] *)

Lemma minDuration_eq : time.minDuration = -9223372036854775808.
Proof. reflexivity. Qed.

Lemma maxDuration_eq : time.maxDuration = 9223372036854775807.
Proof. reflexivity. Qed.

Lemma Minute_eq : time.Minute = 60000000000.
Proof. reflexivity. Qed.

Lemma Sub_cases (t u : time.Time) :
  (t - u < time.minDuration /\ time.Sub t u = time.minDuration) \/
  (time.maxDuration < t - u /\ time.Sub t u = time.maxDuration) \/
  (time.minDuration <= t - u <= time.maxDuration /\ time.Sub t u = t - u).
Proof.
  unfold time.Sub. cbv zeta.
  destruct (Z.ltb_spec (t - u) time.minDuration); [auto|].
  destruct (Z.ltb_spec time.maxDuration (t - u)); [auto|].
  right; right. auto.
Qed.

Lemma Sub_inRange (t u : time.Time) : time.inRange (time.Sub t u).
Proof.
  unfold time.inRange.
  destruct (Sub_cases t u) as [[_ ->] | [[_ ->] | [H ->]]];
    rewrite ?minDuration_eq, ?maxDuration_eq in *; lia.
Qed.

Lemma Sub_nonneg (t u : time.Time) : u <= t -> 0 <= time.Sub t u.
Proof.
  intros Hle.
  destruct (Sub_cases t u) as [[H _] | [[_ ->] | [_ ->]]];
    rewrite ?minDuration_eq, ?maxDuration_eq in *; lia.
Qed.

(** The saturated difference is below two minutes exactly when the
    difference is. *)
Lemma Sub_lt_2min (t u : time.Time) :
  (time.Sub t u <? 2 * time.Minute) = (t - u <? 2 * time.Minute).
Proof.
  destruct (Sub_cases t u) as [[H ->] | [[H ->] | [_ ->]]]; [| |reflexivity];
    rewrite ?minDuration_eq, ?maxDuration_eq, Minute_eq in *;
    symmetry; [apply Z.ltb_lt | apply Z.ltb_ge]; lia.
Qed.

(** ** Chronological lists *)

Lemma chronological_Sorted (events : list Event) :
  chronological events <-> Sorted tsLe events.
Proof.
  split.
  - intros H. apply nth_Sorted. exact H.
  - intros H i a b. apply (Sorted_nth tsLe events H).
Qed.

Lemma chronological_StronglySorted (events : list Event) :
  chronological events -> StronglySorted tsLe events.
Proof.
  intros H%chronological_Sorted.
  apply Sorted_StronglySorted; [|exact H].
  intros a b c. unfold tsLe. lia.
Qed.

(** ** The reconstructor on a chronological stream *)

Lemma chainInv_init (events : list Event) : chainInv initState events.
Proof.
  constructor; simpl.
  - constructor.
  - constructor.
  - intros l' s H. destruct l'; discriminate.
  - discriminate.
  - reflexivity.
Qed.

Lemma snoc_last_eq {A : Type} (l l' : list A) (x y : A) :
  l ++ [x] = l' ++ [y] -> x = y.
Proof. intros H. apply app_inj_tail in H. tauto. Qed.

Lemma chainInv_append (st : LoopState) (opened : Event) (x : Session) :
  chainInv st [] ->
  sessionStart st = Some opened ->
  Start x = Timestamp opened ->
  Sorted follows (sessions st ++ [x]).
Proof.
  intros I Hopen Hx. apply Sorted_snoc; [apply I|].
  intros l' y Hy. destruct (inv_last _ _ I l' y Hy) as [_ Hl].
  rewrite Hopen in Hl. unfold follows. rewrite Hx. exact Hl.
Qed.

Lemma chainInv_weaken (st : LoopState) (e : Event) (events : list Event) :
  chainInv st (e :: events) -> chainInv st events.
Proof.
  intros I. constructor; try apply I.
  - intros l' s Hs. destruct (inv_last _ _ I l' s Hs) as [Hall Hl].
    split; [inversion Hall; assumption | exact Hl].
  - intros o Ho. pose proof (inv_open _ _ I o Ho) as Hall.
    inversion Hall; assumption.
Qed.

Lemma chainInv_nil (st : LoopState) (events : list Event) :
  chainInv st events -> chainInv st [].
Proof.
  induction events as [|e events IH]; [trivial|].
  intros I. apply IH, (chainInv_weaken _ e), I.
Qed.

Lemma step_chainInv (st : LoopState) (e : Event) (events : list Event) :
  Forall (tsLe e) events ->
  chainInv st (e :: events) ->
  chainInv (step st e) events.
Proof.
  intros Hsorted I.
  pose proof (step_kindInv st e (inv_kind _ _ I)) as Hk'.
  pose proof (chainInv_weaken _ _ _ I) as Iw.
  pose proof (inv_kind _ _ I) as Hk.
  destruct st as [ss o ty]. unfold step, kindInv in *. simpl in *.
  destruct (isOpener (EType e)) eqn:Ho.
  - (* Boot or Resume *)
    destruct o as [opened|].
    + (* anomaly: the open session is closed by an opener *)
      pose proof (inv_open _ _ I opened eq_refl) as Hall. simpl in Hall.
      inversion Hall as [|? ? Hoe _]; subst. unfold tsLe in Hoe.
      constructor; simpl.
      * apply Forall_app; split; [apply I|].
        constructor; [|constructor]. split; simpl; [lia | apply Sub_nonneg; lia].
      * eapply (chainInv_append (mkLoopState ss (Some opened) _) opened);
          [exact (chainInv_nil _ _ I) | reflexivity | reflexivity].
      * intros l' s Hs. apply snoc_last_eq in Hs. subst s. simpl.
        split; [exact Hsorted | split; [lia | reflexivity]].
      * intros o' [= <-]. exact Hsorted.
      * exact Hk'.
    + (* a session opens *)
      constructor; simpl; try apply I.
      * intros l' s Hs. destruct (inv_last _ _ I l' s Hs) as [Hall Hl]. simpl in Hl.
        inversion Hall as [|? ? Hse Hrest]; subst.
        split; [exact Hrest | split; [exact Hse | congruence]].
      * intros o' [= <-]. exact Hsorted.
      * exact Hk'.
  - destruct (isCloser (EType e)) eqn:Hc; [|exact Iw].
    destruct o as [opened|]; [|exact Iw].
    (* the open session is closed *)
    pose proof (inv_open _ _ I opened eq_refl) as Hall. simpl in Hall.
    inversion Hall as [|? ? Hoe _]; subst. unfold tsLe in Hoe.
    destruct Hk as [Hop Hty]. simpl in Hty. subst ty.
    constructor; simpl.
    + apply Forall_app; split; [apply I|].
      constructor; [|constructor]. split; simpl; [lia | apply Sub_nonneg; lia].
    + eapply (chainInv_append (mkLoopState ss (Some opened) _) opened);
          [exact (chainInv_nil _ _ I) | reflexivity | reflexivity].
    + intros l' s Hs. apply snoc_last_eq in Hs. subst s. simpl.
      split; [exact Hsorted|].
      apply (closerLabel_isAnomaly _ (EType opened) (EType e)); try assumption.
      simpl. rewrite (closer_endType _ Hc). reflexivity.
    + discriminate.
    + exact Hk'.
Qed.

Lemma run_chainInv (events : list Event) :
  StronglySorted tsLe events ->
  forall st, chainInv st events -> chainInv (fold_left step events st) [].
Proof.
  induction 1 as [|e events Hs IH Hall]; intros st I; simpl.
  - exact I.
  - apply IH, step_chainInv; assumption.
Qed.

Lemma loop_chainInv (events : list Event) :
  chronological events -> chainInv (loop events) [].
Proof.
  intros H%chronological_StronglySorted.
  apply run_chainInv; [exact H | apply chainInv_init].
Qed.

(** The event a session is open on is one of the events consumed. *)
Lemma loop_open_In (events : list Event) (opened : Event) :
  sessionStart (loop events) = Some opened -> In opened events.
Proof.
  induction events as [|e pre IH] using rev_ind; [discriminate|].
  rewrite loop_snoc, in_app_iff. unfold step.
  destruct (isOpener (EType e)); simpl.
  - intros [= <-]. right. left. reflexivity.
  - destruct (isCloser (EType e)); [|intros H; left; auto].
    destruct (sessionStart (loop pre)) eqn:Hs; simpl; [discriminate|].
    rewrite Hs. discriminate.
Qed.

(** ** Sessions do not run backwards, nor overlap *)

(** C7, as the code has it. When the events are non-decreasing by
    timestamp and none is later than [now], every session
    [calculateSessions] returns has [End >= Start], and its duration (the
    saturated difference of the two) is non-negative; the still-active
    session is one of them. *)
Theorem sessions_nonnegative (now : time.Time) (events : list Event) :
  chronological events ->
  Forall (fun e => Timestamp e <= now) events ->
  Forall (fun s => Start s <= End_ s /\ 0 <= Duration s)
         (calculateSessions now events).
Proof.
  intros Hsorted Hnow.
  pose proof (loop_chainInv events Hsorted) as I.
  unfold calculateSessions, finish.
  destruct (sessionStart (loop events)) as [opened|] eqn:Hopen.
  - apply Forall_app; split; [apply I|].
    apply loop_open_In in Hopen.
    rewrite Forall_forall in Hnow. apply Hnow in Hopen.
    constructor; [|constructor]. simpl.
    split; [lia | apply Sub_nonneg; lia].
  - apply I.
Qed.

Lemma sessions_nonnegative_witness :
  chronological [boot8; suspend9] /\
  Forall (fun e => Timestamp e <= at_ 10 0) [boot8; suspend9] /\
  Forall (fun s => Start s <= End_ s /\ 0 <= Duration s)
         (calculateSessions (at_ 10 0) [boot8; suspend9]).
Proof.
  assert (Hc : chronological [boot8; suspend9]).
  { intros [|[|i]] a b Ha Hb; simpl in *; try discriminate.
    injection Ha as <-. injection Hb as <-. simpl. discriminate. }
  assert (Hn : Forall (fun e => Timestamp e <= at_ 10 0) [boot8; suspend9]).
  { repeat constructor; simpl; discriminate. }
  split; [exact Hc|]. split; [exact Hn|].
  exact (sessions_nonnegative (at_ 10 0) [boot8; suspend9] Hc Hn).
Defined.

(** C7 as stated fails: a boot logged later than [now] (a clock set back
    since) gives a still-active session that ends before it starts. *)
Lemma sessions_nonnegative_counterexample :
  ~ Forall (fun s => Start s <= End_ s /\ 0 <= Duration s)
           (calculateSessions 50 [ {| Timestamp := 100; EType := "boot" |} ]).
Proof.
  intros H. inversion H as [|s l [Hle _] _]; subst.
  simpl in Hle. lia.
Qed.

(** Nor does it hold off chronological streams: a closer logged before
    its opener closes a session backwards. *)
Example session_backwards_unsorted :
  calculateSessions (at_ 19 0) [resume9; {| Timestamp := at_ 8 0; EType := "suspend" |}]
  = [ {| Start := at_ 9 0; End_ := at_ 8 0; Duration := - time.Hour;
         SType := "resume → suspend" |} ].
Proof. reflexivity. Qed.

(** C10. When the events are non-decreasing by timestamp, consecutive
    sessions of the output do not overlap: each ends no later than the next
    one starts, and an anomaly session ends exactly where the next one
    starts. *)
Theorem sessions_chained (now : time.Time) (events : list Event) :
  chronological events ->
  forall i a b,
    nth_error (calculateSessions now events) i = Some a ->
    nth_error (calculateSessions now events) (S i) = Some b ->
    End_ a <= Start b /\ (isAnomaly a = true -> End_ a = Start b).
Proof.
  intros Hsorted.
  pose proof (loop_chainInv events Hsorted) as I.
  apply (Sorted_nth follows).
  unfold calculateSessions, finish.
  destruct (sessionStart (loop events)) as [opened|] eqn:Hopen.
  - apply (chainInv_append _ opened); [exact I | exact Hopen | reflexivity].
  - apply I.
Qed.

Lemma sessions_chained_witness :
  chronological [boot8; resume9; shutdown18] /\
  calculateSessions (at_ 19 0) [boot8; resume9; shutdown18] =
    [ {| Start := at_ 8 0; End_ := at_ 9 0; Duration := time.Hour;
         SType := "boot → resume" |};
      {| Start := at_ 9 0; End_ := at_ 18 0; Duration := 9 * time.Hour;
         SType := "resume → shutdown" |} ] /\
  at_ 9 0 <= at_ 9 0 /\ (true = true -> at_ 9 0 = at_ 9 0).
Proof.
  assert (Hc : chronological [boot8; resume9; shutdown18]).
  { intros [|[|[|i]]] a b Ha Hb; simpl in *; try discriminate;
      injection Ha as <-; injection Hb as <-; simpl; discriminate. }
  split; [exact Hc|]. split; [reflexivity|].
  exact (sessions_chained (at_ 19 0) [boot8; resume9; shutdown18] Hc
           0%nat _ _ eq_refl eq_refl).
Defined.

(** ** [deduplicateEvents] as a left-to-right scan *)

(** The loop keeps in [result] what the scan retains: the last retained
    event is the last element of [result]. *)
Lemma dedup_fold (rest acc : list Event) (x : Event) :
  fold_left dedupStep rest (acc ++ [x]) = acc ++ x :: scanFrom isRepeat x rest.
Proof.
  revert acc x. induction rest as [|e rest IH]; intros acc x; simpl.
  - reflexivity.
  - unfold dedupStep at 2. rewrite last_last.
    destruct (isRepeat x e).
    + apply IH.
    + rewrite IH, <- app_assoc. reflexivity.
Qed.

Lemma dedup_scan (first : Event) (rest : list Event) :
  deduplicateEvents (first :: rest) = first :: scanFrom isRepeat first rest.
Proof. exact (dedup_fold rest [] first). Qed.

Lemma scanFrom_idem (r : Event -> Event -> bool) (l : list Event) :
  forall x, scanFrom r x (scanFrom r x l) = scanFrom r x l.
Proof.
  induction l as [|e l IH]; intros x; simpl; [reflexivity|].
  destruct (r x e) eqn:Hr; simpl.
  - apply IH.
  - rewrite Hr, IH. reflexivity.
Qed.

Lemma scanFrom_Forall (P : Event -> Prop) (r : Event -> Event -> bool) (l : list Event) :
  Forall P l -> forall x, Forall P (scanFrom r x l).
Proof.
  induction 1 as [|e l He _ IH]; intros x; simpl; [constructor|].
  destruct (r x e); [apply IH | constructor; [exact He | apply IH]].
Qed.

Lemma scanFrom_StronglySorted (R : Event -> Event -> Prop)
    (r : Event -> Event -> bool) (l : list Event) :
  StronglySorted R l -> forall x, StronglySorted R (scanFrom r x l).
Proof.
  induction 1 as [|e l _ IH Hall]; intros x; simpl; [constructor|].
  destruct (r x e); [apply IH|].
  constructor; [apply IH | apply scanFrom_Forall, Hall].
Qed.

Lemma dedup_StronglySorted (R : Event -> Event -> Prop) (l : list Event) :
  StronglySorted R l -> StronglySorted R (deduplicateEvents l).
Proof.
  destruct l as [|first rest]; [trivial|].
  rewrite dedup_scan. intros H. inversion H as [|? ? Hs Hall]; subst.
  constructor; [apply scanFrom_StronglySorted, Hs | apply scanFrom_Forall, Hall].
Qed.

(** On instants in order, the code's test and the distance agree. *)
Lemma isRepeat_claimed (retained e : Event) :
  tsLe retained e -> isRepeat retained e = claimedRepeat retained e.
Proof.
  unfold tsLe, isRepeat, claimedRepeat, within2Minutes. intros Hle.
  rewrite Sub_lt_2min, Z.abs_eq by lia. reflexivity.
Qed.

Lemma scanFrom_claimed (l : list Event) :
  forall x, StronglySorted tsLe (x :: l) ->
            scanFrom isRepeat x l = scanFrom claimedRepeat x l.
Proof.
  induction l as [|e l IH]; intros x Hs; simpl; [reflexivity|].
  inversion Hs as [|? ? Hl Hall]; subst.
  inversion Hall as [|? ? Hxe Hxl]; subst.
  inversion Hl as [|? ? Hl' Hel]; subst.
  rewrite (isRepeat_claimed x e Hxe).
  destruct (claimedRepeat x e).
  - apply IH. constructor; assumption.
  - f_equal. apply IH. exact Hl.
Qed.

(** ** Deduplication *)

(** C5, as the code has it. On a list of events that is non-decreasing by
    timestamp, [deduplicateEvents] keeps the first event and, scanning left
    to right, drops an event exactly when it has the kind of the last
    retained event and is less than 2 minutes from it; the others are
    retained, in order. *)
Theorem dedup_drops_repeats (events : list Event) :
  chronological events ->
  deduplicateEvents events = dedupAsClaimed events.
Proof.
  intros Hs%chronological_StronglySorted.
  destruct events as [|first rest]; [reflexivity|].
  rewrite dedup_scan. unfold dedupAsClaimed. f_equal.
  apply scanFrom_claimed, Hs.
Qed.

Lemma dedup_drops_repeats_witness :
  chronological [boot8; suspend9; suspend901] /\
  deduplicateEvents [boot8; suspend9; suspend901] = [boot8; suspend9].
Proof.
  assert (Hc : chronological [boot8; suspend9; suspend901]).
  { intros [|[|[|i]]] a b Ha Hb; simpl in *; try discriminate;
      injection Ha as <-; injection Hb as <-; simpl; discriminate. }
  split; [exact Hc|].
  exact (dedup_drops_repeats [boot8; suspend9; suspend901] Hc).
Defined.

(** C5 as stated fails off chronological lists: a suspend an hour
    earlier than the retained suspend is not within 2 minutes of it, and is
    dropped all the same, because the code tests the signed difference. *)
Lemma dedup_drops_repeats_counterexample :
  let early := {| Timestamp := at_ 8 0; EType := "suspend" |} in
  within2Minutes (Timestamp early) (Timestamp suspend9) = false /\
  deduplicateEvents [suspend9; early] = [suspend9] /\
  deduplicateEvents [suspend9; early] <> dedupAsClaimed [suspend9; early].
Proof.
  cbv zeta. split; [reflexivity|]. split; [reflexivity|]. discriminate.
Qed.

(** C6. [deduplicateEvents] is idempotent: a second pass over its output
    drops nothing. *)
Theorem dedup_idempotent (events : list Event) :
  deduplicateEvents (deduplicateEvents events) = deduplicateEvents events.
Proof.
  destruct events as [|first rest]; [reflexivity|].
  rewrite dedup_scan, dedup_scan, scanFrom_idem. reflexivity.
Qed.

(** ** Sorting, then deduplicating *)

Lemma byTimestamp_asym (a b : Event) :
  byTimestamp a b = true -> byTimestamp b a = false.
Proof.
  unfold byTimestamp, time.Before. intros H%Z.ltb_lt. apply Z.ltb_ge. lia.
Qed.

Lemma byTimestamp_trans (a b c : Event) :
  byTimestamp b a = false -> byTimestamp c b = false -> byTimestamp c a = false.
Proof.
  unfold byTimestamp, time.Before. rewrite !Z.ltb_ge. lia.
Qed.

Lemma byTimestamp_tsLe (l : list Event) :
  StronglySorted (fun a b => byTimestamp b a = false) l -> StronglySorted tsLe l.
Proof.
  induction 1 as [|x l _ IH Hall]; constructor; [exact IH|].
  eapply Forall_impl; [|exact Hall].
  intros b. unfold byTimestamp, time.Before, tsLe. apply Z.ltb_ge.
Qed.

Section InsertionSort.

Variable less : Event -> Event -> bool.
Hypothesis less_asym : forall a b, less a b = true -> less b a = false.
Hypothesis less_trans :
  forall a b c, less b a = false -> less c b = false -> less c a = false.

Lemma insertBy_perm (x : Event) (l : list Event) :
  Permutation (x :: l) (insertBy less x l).
Proof.
  induction l as [|y l IH]; simpl; [reflexivity|].
  destruct (less x y); [reflexivity|].
  rewrite perm_swap. constructor. exact IH.
Qed.

Lemma insertBy_sorted (x : Event) (l : list Event) :
  StronglySorted (fun a b => less b a = false) l ->
  StronglySorted (fun a b => less b a = false) (insertBy less x l).
Proof.
  induction 1 as [|y l Hs IH Hall]; simpl.
  - repeat constructor.
  - destruct (less x y) eqn:Hxy.
    + constructor; [constructor; assumption|].
      assert (Hle : less y x = false) by (apply less_asym, Hxy).
      constructor; [exact Hle|].
      eapply Forall_impl; [|exact Hall].
      intros z Hyz. exact (less_trans x y z Hle Hyz).
    + constructor; [exact IH|].
      apply (Permutation_Forall (insertBy_perm x l)).
      constructor; assumption.
Qed.

Lemma insertionSort_perm (l : list Event) : Permutation l (insertionSort less l).
Proof.
  induction l as [|x l IH]; simpl; [constructor|].
  etransitivity; [|apply insertBy_perm]. constructor. exact IH.
Qed.

Lemma insertionSort_sorted (l : list Event) :
  StronglySorted (fun a b => less b a = false) (insertionSort less l).
Proof.
  induction l as [|x l IH]; simpl; [constructor|].
  apply insertBy_sorted, IH.
Qed.

End InsertionSort.

Lemma insertionSort_sortsSlices : sortsSlices insertionSort.
Proof.
  intros less Hasym Htrans l. split.
  - apply insertionSort_perm.
  - apply insertionSort_sorted; assumption.
Qed.

(** C4. Whatever [sort.Slice] does with ties, the list [getSystemEvents]
    returns, sorted by [Before] and then deduplicated, is non-decreasing by
    timestamp: each event's timestamp is at most the next one's. *)
Theorem normalized_chronological
    (sortSlice : (Event -> Event -> bool) -> list Event -> list Event)
    (events : list Event) :
  sortsSlices sortSlice ->
  forall i a b,
    nth_error (normalize sortSlice events) i = Some a ->
    nth_error (normalize sortSlice events) (S i) = Some b ->
    Timestamp a <= Timestamp b.
Proof.
  intros Hsort.
  destruct (Hsort byTimestamp byTimestamp_asym byTimestamp_trans events) as [_ Hs].
  apply byTimestamp_tsLe, (dedup_StronglySorted tsLe) in Hs.
  apply StronglySorted_Sorted in Hs.
  apply (Sorted_nth tsLe _ Hs).
Qed.

(** So is the list [getSystemEvents] hands to [calculateSessions]. *)
Lemma getSystemEvents_chronological
    (sortSlice : (Event -> Event -> bool) -> list Event -> list Event)
    (Parse : string -> string -> option time.Time) (clock : nat -> time.Time)
    (bootOutput : option (list string)) (suspendEvents events : list Event) :
  sortsSlices sortSlice ->
  getSystemEvents sortSlice Parse clock bootOutput suspendEvents = Some events ->
  StronglySorted tsLe events.
Proof.
  intros Hsort. unfold getSystemEvents, normalize.
  destruct bootOutput as [output|]; [|discriminate].
  intros [= <-].
  apply dedup_StronglySorted, byTimestamp_tsLe.
  apply (Hsort byTimestamp byTimestamp_asym byTimestamp_trans).
Qed.

Lemma normalized_chronological_witness :
  sortsSlices insertionSort /\
  normalize insertionSort [shutdown18; suspend901; boot8; suspend9] =
    [boot8; suspend9; shutdown18] /\
  Timestamp suspend9 <= Timestamp shutdown18.
Proof.
  split; [exact insertionSort_sortsSlices|]. split; [reflexivity|].
  exact (normalized_chronological insertionSort
           [shutdown18; suspend901; boot8; suspend9]
           insertionSort_sortsSlices 1%nat suspend9 shutdown18 eq_refl eq_refl).
Defined.

(** ** The summary *)

Lemma wrap64_small (z : Z) : time.inRange z -> time.wrap64 z = z.
Proof.
  unfold time.inRange, time.wrap64. rewrite minDuration_eq, maxDuration_eq.
  intros H. rewrite Z.mod_small; lia.
Qed.

Lemma wrap64_add_l (a b : Z) : time.wrap64 (time.wrap64 a + b) = time.wrap64 (a + b).
Proof.
  unfold time.wrap64. f_equal.
  replace ((a + 2 ^ 63) mod 2 ^ 64 - 2 ^ 63 + b + 2 ^ 63)
    with ((a + 2 ^ 63) mod 2 ^ 64 + b) by ring.
  rewrite Zplus_mod_idemp_l. f_equal. ring.
Qed.

Lemma total_wrap (l : list Session) (acc : Z) :
  fold_left addDuration l (time.wrap64 acc) = time.wrap64 (acc + sumDurations l).
Proof.
  revert acc. induction l as [|s l IH]; intros acc; simpl.
  - rewrite Z.add_0_r. reflexivity.
  - unfold addDuration at 2. rewrite wrap64_add_l, IH. f_equal. ring.
Qed.

Lemma firstMax_snoc (pre : list Session) (lg s : Session) :
  firstMax pre lg ->
  firstMax (pre ++ [s]) (if Duration lg <? Duration s then s else lg).
Proof.
  intros (i & Hi & Hmax & Hbefore).
  assert (Hlt : (i < List.length pre)%nat) by (apply nth_error_Some; congruence).
  destruct (Z.ltb_spec (Duration lg) (Duration s)) as [Hgt|Hle].
  - exists (List.length pre). repeat split.
    + rewrite nth_error_app2, Nat.sub_diag by lia. reflexivity.
    + intros x [Hx|[<-|[]]]%in_app_iff; [|lia].
      specialize (Hmax x Hx). lia.
    + intros j x Hj Hx. rewrite nth_error_app1 in Hx by assumption.
      apply nth_error_In, Hmax in Hx. lia.
  - exists i. repeat split.
    + rewrite nth_error_app1 by assumption. exact Hi.
    + intros x [Hx|[<-|[]]]%in_app_iff; [auto | lia].
    + intros j x Hj Hx. rewrite nth_error_app1 in Hx by lia.
      eapply Hbefore; eassumption.
Qed.

Lemma firstMin_snoc (pre : list Session) (sh s : Session) :
  firstMin pre sh ->
  firstMin (pre ++ [s]) (if Duration s <? Duration sh then s else sh).
Proof.
  intros (i & Hi & Hmin & Hbefore).
  assert (Hlt : (i < List.length pre)%nat) by (apply nth_error_Some; congruence).
  destruct (Z.ltb_spec (Duration s) (Duration sh)) as [Hgt|Hle].
  - exists (List.length pre). repeat split.
    + rewrite nth_error_app2, Nat.sub_diag by lia. reflexivity.
    + intros x [Hx|[<-|[]]]%in_app_iff; [|lia].
      specialize (Hmin x Hx). lia.
    + intros j x Hj Hx. rewrite nth_error_app1 in Hx by assumption.
      apply nth_error_In, Hmin in Hx. lia.
  - exists i. repeat split.
    + rewrite nth_error_app1 by assumption. exact Hi.
    + intros x [Hx|[<-|[]]]%in_app_iff; [auto | lia].
    + intros j x Hj Hx. rewrite nth_error_app1 in Hx by lia.
      eapply Hbefore; eassumption.
Qed.

(** The candidates after the scan has passed [pre] are the first longest
    and the first shortest session of [pre]; so they are at the end. *)
Lemma pick_scan (rest pre : list Session) (lg sh : Session) :
  firstMax pre lg -> firstMin pre sh ->
  firstMax (pre ++ rest) (fst (fold_left pick rest (lg, sh))) /\
  firstMin (pre ++ rest) (snd (fold_left pick rest (lg, sh))).
Proof.
  revert pre lg sh. induction rest as [|s rest IH]; intros pre lg sh Hmax Hmin.
  - rewrite app_nil_r. split; assumption.
  - simpl.
    replace (pre ++ s :: rest) with ((pre ++ [s]) ++ rest)
      by (rewrite <- app_assoc; reflexivity).
    apply IH; [apply firstMax_snoc | apply firstMin_snoc]; assumption.
Qed.

Lemma firstMax_single (s : Session) : firstMax [s] s.
Proof.
  exists O. repeat split.
  - intros x [<-|[]]. lia.
  - intros j x Hj. lia.
Qed.

Lemma firstMin_single (s : Session) : firstMin [s] s.
Proof.
  exists O. repeat split.
  - intros x [<-|[]]. lia.
  - intros j x Hj. lia.
Qed.

(** C9, as the code has it. On a non-empty list of sessions,
    [displaySummary] computes: the count; the total, which is the sum of
    the durations in [int64] arithmetic, that is the sum itself whenever it
    fits a [Duration]; the average, the total divided by the count (Go's
    truncated division); the longest and the shortest session, each the
    first one of largest, respectively smallest, duration. *)
Theorem summary_values (l : list Session) :
  l <> [] ->
  exists sm,
    displaySummary l = Some sm /\
    count sm = List.length l /\
    totalDuration sm = time.wrap64 (sumDurations l) /\
    (time.inRange (sumDurations l) -> totalDuration sm = sumDurations l) /\
    avgDuration sm = Z.quot (totalDuration sm) (Z.of_nat (List.length l)) /\
    firstMax l (longest sm) /\
    firstMin l (shortest sm).
Proof.
  destruct l as [|s0 rest]; [congruence|]. intros _.
  unfold displaySummary.
  destruct (pick_scan rest [s0] s0 s0 (firstMax_single s0) (firstMin_single s0))
    as [Hmax Hmin].
  destruct (fold_left pick rest (s0, s0)) as [lg sh]. simpl in Hmax, Hmin.
  assert (Htot : fold_left addDuration (s0 :: rest) 0
                 = time.wrap64 (sumDurations (s0 :: rest))).
  { exact (total_wrap (s0 :: rest) 0). }
  eexists. split; [reflexivity|]. cbn [count totalDuration avgDuration longest shortest].
  repeat split; try assumption.
  intros Hr. rewrite Htot. apply wrap64_small, Hr.
Qed.

Lemma summary_values_witness :
  let l := [ mkSession (at_ 8 0) (at_ 9 0) time.Hour "boot → suspend";
             mkSession (at_ 10 0) (at_ 13 0) (3 * time.Hour) "resume → suspend";
             mkSession (at_ 14 0) (at_ 15 0) time.Hour "resume → suspend";
             mkSession (at_ 16 0) (at_ 19 0) (3 * time.Hour) "resume → shutdown" ] in
  l <> [] /\
  exists sm,
    displaySummary l = Some sm /\
    totalDuration sm = 8 * time.Hour /\
    avgDuration sm = 2 * time.Hour /\
    Start (longest sm) = at_ 10 0 /\
    Start (shortest sm) = at_ 8 0.
Proof.
  intros l. split; [discriminate|].
  destruct (summary_values l ltac:(discriminate)) as (sm & Hsm & _ & Htot & _ & Havg & _).
  exists sm. split; [exact Hsm|].
  split; [exact Htot|].
  injection Hsm as <-. repeat split.
Defined.

(** C9 as stated fails where the sum leaves [int64]: a session of more
    than 292 years (its duration saturated by [Sub]) and one more hour add
    up, in the code, to a negative total. *)
Lemma summary_values_counterexample :
  let l := calculateSessions (at_ 2700000 0)
             [ {| Timestamp := 0; EType := "boot" |};
               {| Timestamp := at_ 2600000 0; EType := "shutdown" |};
               {| Timestamp := at_ 2600001 0; EType := "boot" |};
               {| Timestamp := at_ 2600002 0; EType := "shutdown" |} ] in
  exists sm,
    displaySummary l = Some sm /\
    sumDurations l = time.maxDuration + time.Hour /\
    totalDuration sm = time.minDuration + time.Hour - 1 /\
    totalDuration sm <> sumDurations l.
Proof.
  cbv zeta. eexists. split; [reflexivity|].
  split; [reflexivity|]. split; [reflexivity|]. discriminate.
Qed.

(** ** The pattern and the separator *)

Lemma cut_space (s : string) :
  (1 <= countSpaces s)%nat ->
  exists a b, cut space s = Some (a, b) /\ (countSpaces b + 1 = countSpaces s)%nat.
Proof.
  induction s as [|c s IH]; simpl; [lia|].
  destruct (Ascii.eqb c space); simpl.
  - intros _. exists EmptyString, s. split; [reflexivity | lia].
  - intros H. destruct (IH H) as (a & b & -> & Hb).
    exists (String c a), b. split; [reflexivity | exact Hb].
Qed.

(** A line with two separators splits in three. *)
Lemma SplitN_three (line : string) :
  (2 <= countSpaces line)%nat -> List.length (SplitN line space 3) = 3%nat.
Proof.
  intros H. simpl.
  destruct (cut_space line) as (a & b & -> & Hb); [lia|].
  destruct (cut_space b) as (a' & b' & -> & _); [lia|].
  reflexivity.
Qed.

Lemma matchItems_spaces (p : list item) :
  forall s m r, matchItems p s = Some (m, r) -> (spaceItems p <= countSpaces s)%nat.
Proof.
  unfold spaceItems.
  induction p as [|it p IH]; intros s m r H; simpl in *; [lia|].
  destruct s as [|c s]; [discriminate|].
  destruct (accepts it c) eqn:Hacc; [|discriminate].
  destruct (matchItems p s) as [[m' r']|] eqn:Hm; [|discriminate].
  specialize (IH s m' r' Hm). simpl.
  destruct it as [| |c']; simpl in *; try lia.
  rewrite Ascii.eqb_sym in Hacc. apply Ascii.eqb_eq in Hacc. subst c'.
  destruct (Ascii.eqb c space); simpl; lia.
Qed.

Lemma matchDateAt_spaces (s m rest : string) :
  matchDateAt s = Some (m, rest) -> (3 <= countSpaces s)%nat.
Proof.
  unfold matchDateAt.
  destruct (matchItems dateItems s) as [[m' r']|] eqn:Hm; [|discriminate].
  intros _. exact (matchItems_spaces dateItems s m' r' Hm).
Qed.

Lemma findAllFrom_spaces (fuel : nat) :
  forall s, findAllFrom fuel s <> [] -> (3 <= countSpaces s)%nat.
Proof.
  induction fuel as [|fuel IH]; intros s H; simpl in H; [congruence|].
  destruct s as [|c s]; [congruence|].
  destruct (matchDateAt (String c s)) as [[m rest]|] eqn:Hm.
  - exact (matchDateAt_spaces _ _ _ Hm).
  - specialize (IH s H). simpl. lia.
Qed.

(** A line on which the pattern matches passes the [len(parts) < 3] test. *)
Lemma matched_line_splits (line d0 : string) (more : list string) :
  FindAllString line = d0 :: more ->
  (List.length (SplitN line space 3) <? 3)%nat = false.
Proof.
  intros H. rewrite SplitN_three; [reflexivity|].
  assert (3 <= countSpaces line)%nat; [|lia].
  apply (findAllFrom_spaces (String.length line)).
  unfold FindAllString in H. congruence.
Qed.

(** ** The search always has rounds to spare *)

Lemma matchItems_length (p : list item) :
  forall s m r, matchItems p s = Some (m, r) ->
                (String.length r + List.length p = String.length s)%nat.
Proof.
  induction p as [|it p IH]; intros s m r H; simpl in *.
  - injection H as _ <-. lia.
  - destruct s as [|c s]; [discriminate|].
    destruct (accepts it c); [|discriminate].
    destruct (matchItems p s) as [[m' r']|] eqn:Hm; [|discriminate].
    injection H as _ <-. specialize (IH s m' r' Hm). simpl. lia.
Qed.

Lemma spanWord_length (s : string) :
  (String.length (snd (spanWord s)) <= String.length s)%nat.
Proof.
  induction s as [|c s IH]; simpl; [lia|].
  destruct (isWord c); simpl; [|lia].
  destruct (spanWord s) as [w r]. simpl in *. lia.
Qed.

Lemma matchDateAt_length (s m rest : string) :
  matchDateAt s = Some (m, rest) -> (String.length rest < String.length s)%nat.
Proof.
  unfold matchDateAt.
  destruct (matchItems dateItems s) as [[m' r']|] eqn:Hm; [|discriminate].
  apply matchItems_length in Hm. simpl in Hm.
  pose proof (spanWord_length r') as Hw.
  destruct (spanWord r') as [[|c w] rest']; [discriminate|].
  intros [= _ <-]. simpl in Hw. lia.
Qed.

(** More fuel than the length of the text changes nothing: the fuel of
    [FindAllString] never runs out before the text does. *)
Lemma findAllFrom_enough (fuel : nat) :
  forall fuel' s,
    (String.length s <= fuel)%nat -> (String.length s <= fuel')%nat ->
    findAllFrom fuel s = findAllFrom fuel' s.
Proof.
  induction fuel as [|fuel IH]; intros fuel' s H H'.
  - destruct s; [|simpl in H; lia]. destruct fuel'; reflexivity.
  - destruct s as [|c s]; [destruct fuel'; reflexivity|].
    destruct fuel' as [|fuel']; [simpl in H'; lia|].
    simpl findAllFrom.
    destruct (matchDateAt (String c s)) as [[m rest]|] eqn:Hm.
    + apply matchDateAt_length in Hm. simpl in *.
      f_equal. apply IH; lia.
    + simpl in *. apply IH; lia.
Qed.

(** ** Boot-interval lines *)

Section ExtractorProperties.

Variable Parse : string -> string -> option time.Time.

(** The loop appends, line after line, what each line contributes. *)
Lemma bootEventsFrom_app (clock : nat -> time.Time) (l1 l2 : list string) :
  forall i,
    bootEventsFrom Parse clock i (l1 ++ l2) =
    bootEventsFrom Parse clock i l1
    ++ bootEventsFrom Parse clock (i + List.length l1) l2.
Proof.
  induction l1 as [|line l1 IH]; intros i; simpl.
  - rewrite Nat.add_0_r. reflexivity.
  - rewrite IH, <- app_assoc. do 3 f_equal. lia.
Qed.

(** What one pass of the loop body appends, by the three cases of a line. *)
Lemma bootLineEvents_cases (now : time.Time) (line : string) :
  (forall d0 d1 more startTime endTime,
      FindAllString line = d0 :: d1 :: more ->
      Parse bootLayout d0 = Some startTime ->
      Parse bootLayout d1 = Some endTime ->
      exists closing,
        bootLineEvents Parse now line =
          {| Timestamp := startTime; EType := "boot" |} :: closing /\
        ((endTime < now - time.Minute /\
          closing = [ {| Timestamp := endTime; EType := "shutdown" |} ]) \/
         (now - time.Minute <= endTime /\ closing = []))) /\
  ((List.length (FindAllString line) < 2)%nat ->
   bootLineEvents Parse now line = []) /\
  (forall d0 d1 more,
      FindAllString line = d0 :: d1 :: more ->
      Parse bootLayout d0 = None \/ Parse bootLayout d1 = None ->
      bootLineEvents Parse now line = []).
Proof.
  unfold bootLineEvents. cbv zeta. repeat split.
  - intros d0 d1 more startTime endTime Hf H0 H1.
    rewrite (matched_line_splits _ _ _ Hf), Hf, H0, H1.
    eexists. split; [reflexivity|].
    unfold time.Before, time.Add.
    replace (now + -1 * time.Minute) with (now - time.Minute) by ring.
    destruct (Z.ltb_spec endTime (now - time.Minute)); [left | right]; auto.
  - intros Hlen.
    destruct (List.length (SplitN line space 3) <? 3)%nat; [reflexivity|].
    destruct (FindAllString line) as [|d0 [|d1 more]]; try reflexivity.
    simpl in Hlen. lia.
  - intros d0 d1 more Hf Hnone.
    destruct (List.length (SplitN line space 3) <? 3)%nat; [reflexivity|].
    rewrite Hf.
    destruct (Parse bootLayout d0); [|reflexivity].
    destruct Hnone as [Hnone|Hnone]; [discriminate|].
    rewrite Hnone. reflexivity.
Qed.

(** C8. The events the boot-interval extractor returns for the output of
    the boot listing. The first line, the header, gives nothing. For each
    later line, the events of the lines before it come first, then what the
    line itself contributes, then the events of the lines after it, and
    nothing else. A line where the pattern finds (at least) two phrases and
    [time.Parse] accepts the first two contributes a Boot event at the
    first instant, followed by a Shutdown event at the second one exactly
    when that instant is more than one minute before [now], the reading of
    the clock while the line is processed. A line with fewer than two
    phrases, or with one of the first two phrases rejected, contributes no
    event. *)
Theorem boot_line_events (clock : nat -> time.Time) (output : list string) :
  (tl output = [] -> bootEvents Parse clock output = []) /\
  (forall pre line post,
      tl output = pre ++ line :: post ->
      let now := clock (List.length pre) in
      exists contribution,
        bootEvents Parse clock output =
          bootEventsFrom Parse clock 0 pre
          ++ contribution
          ++ bootEventsFrom Parse clock (S (List.length pre)) post /\
        (forall d0 d1 more startTime endTime,
            FindAllString line = d0 :: d1 :: more ->
            Parse bootLayout d0 = Some startTime ->
            Parse bootLayout d1 = Some endTime ->
            exists closing,
              contribution =
                {| Timestamp := startTime; EType := "boot" |} :: closing /\
              ((endTime < now - time.Minute /\
                closing = [ {| Timestamp := endTime; EType := "shutdown" |} ]) \/
               (now - time.Minute <= endTime /\ closing = []))) /\
        ((List.length (FindAllString line) < 2)%nat -> contribution = []) /\
        (forall d0 d1 more,
            FindAllString line = d0 :: d1 :: more ->
            Parse bootLayout d0 = None \/ Parse bootLayout d1 = None ->
            contribution = [])).
Proof.
  unfold bootEvents. split.
  - intros ->. reflexivity.
  - intros pre line post Hlines. cbv zeta.
    exists (bootLineEvents Parse (clock (List.length pre)) line). split.
    + rewrite Hlines, bootEventsFrom_app. reflexivity.
    + apply bootLineEvents_cases.
Qed.

End ExtractorProperties.

Lemma boot_line_events_witness :
  let header := "IDX BOOT ID FIRST ENTRY LAST ENTRY"%string in
  let short := "-2 0123456789 Mon 2025-01-01 06:00:00 UTC"%string in
  tl [header; short; bootRow] = [short] ++ bootRow :: [] /\
  FindAllString bootRow
    = [ "Mon 2025-01-01 08:00:00 UTC"; "Mon 2025-01-01 18:00:00 UTC" ]%string /\
  bootEvents scenarioParse (fun _ => at_ 18 2) [header; short; bootRow]
    = [boot8; shutdown18] /\
  bootEvents scenarioParse (fun _ => at_ 18 0 + 30 * time.Second) [header; short; bootRow]
    = [boot8] /\
  bootEvents scenarioParse (fun _ => at_ 18 2) [header; short] = [] /\
  bootEvents scenarioParse (fun _ => at_ 18 2) [header] = [].
Proof.
  intros header short.
  split; [reflexivity|]. split; [reflexivity|]. split; [|split; [|split]].
  - destruct (proj2 (boot_line_events scenarioParse (fun _ => at_ 18 2)
                       [header; short; bootRow]) [short] bootRow [] eq_refl)
      as (contribution & -> & Hparsed & _).
    destruct (Hparsed _ _ _ _ _ eq_refl eq_refl eq_refl)
      as (closing & -> & [[_ ->] | [H _]]).
    + reflexivity.
    + exfalso. revert H. vm_compute. intros H. apply H. reflexivity.
  - destruct (proj2 (boot_line_events scenarioParse (fun _ => at_ 18 0 + 30 * time.Second)
                       [header; short; bootRow]) [short] bootRow [] eq_refl)
      as (contribution & -> & Hparsed & _).
    destruct (Hparsed _ _ _ _ _ eq_refl eq_refl eq_refl)
      as (closing & -> & [[H _] | [_ ->]]).
    + exfalso. revert H. vm_compute. discriminate.
    + reflexivity.
  - destruct (proj2 (boot_line_events scenarioParse (fun _ => at_ 18 2)
                       [header; short]) [] short [] eq_refl)
      as (contribution & -> & _ & Hfew & _).
    rewrite Hfew; [reflexivity|]. vm_compute. lia.
  - exact (proj1 (boot_line_events scenarioParse (fun _ => at_ 18 2) [header]) eq_refl).
Defined.

(** ** Scenarios *)

(** One closed boot: a Boot and a Shutdown event, one session of ten
    hours. *)
Example scenario_closed_boot :
  bootEvents scenarioParse (fun _ => at_ 18 2) [ "IDX BOOT ID FIRST ENTRY LAST ENTRY"%string; bootRow ]
    = [boot8; shutdown18] /\
  calculateSessions (at_ 18 2) (normalize insertionSort [boot8; shutdown18])
    = [ {| Start := at_ 8 0; End_ := at_ 18 0; Duration := 10 * time.Hour;
           SType := "boot → shutdown" |} ].
Proof. split; reflexivity. Qed.

(** The running boot: its last entry is within a minute of [now], no
    Shutdown event, and the session is still active. *)
Example scenario_running_boot :
  let now := at_ 18 0 + 30 * time.Second in
  bootEvents scenarioParse (fun _ => now) [ "IDX BOOT ID FIRST ENTRY LAST ENTRY"%string; bootRow ]
    = [boot8] /\
  calculateSessions now (normalize insertionSort [boot8])
    = [ {| Start := at_ 8 0; End_ := now; Duration := 10 * time.Hour + 30 * time.Second;
           SType := "boot → (still active)" |} ].
Proof. split; reflexivity. Qed.

(** A suspend logged twice within two minutes is collapsed. *)
Example scenario_double_suspend :
  normalize insertionSort [boot8; suspend9; suspend901] = [boot8; suspend9] /\
  calculateSessions (at_ 10 0) [boot8; suspend9]
    = [ {| Start := at_ 8 0; End_ := at_ 9 0; Duration := time.Hour;
           SType := "boot → suspend" |} ].
Proof. split; reflexivity. Qed.

(** Exactly two minutes apart is not a repeat: the test is strict. *)
Example two_minutes_apart_kept :
  deduplicateEvents [suspend9; {| Timestamp := at_ 9 2; EType := "suspend" |}]
  = [suspend9; {| Timestamp := at_ 9 2; EType := "suspend" |}].
Proof. reflexivity. Qed.

(** No data row: no event. *)
Example scenario_no_rows :
  bootEvents scenarioParse (fun _ => at_ 18 2) [ "IDX BOOT ID FIRST ENTRY LAST ENTRY"%string ] = [].
Proof. reflexivity. Qed.

(** * Further properties of the code *)

(** ** The reconstructor: one session per opener *)

(** The starts of the sessions written so far, then the open timestamp if
    a session is open, are the timestamps of the openers consumed. *)
Lemma loop_starts (events : list Event) :
  map Start (sessions (loop events))
  ++ match sessionStart (loop events) with
     | Some opened => [Timestamp opened]
     | None => []
     end
  = map Timestamp (filter opens events).
Proof.
  induction events as [|e pre IH] using rev_ind; [reflexivity|].
  rewrite loop_snoc, filter_app, map_app, <- IH. clear IH.
  unfold step, opens. simpl.
  destruct (isOpener (EType e)) eqn:Ho; simpl.
  - destruct (sessionStart (loop pre)) as [opened|]; simpl.
    + rewrite map_app. reflexivity.
    + rewrite app_nil_r. reflexivity.
  - destruct (isCloser (EType e)).
    + destruct (sessionStart (loop pre)) as [opened|] eqn:Hs; simpl.
      * rewrite map_app, !app_nil_r. reflexivity.
      * rewrite Hs, !app_nil_r. reflexivity.
    + rewrite app_nil_r. reflexivity.
Qed.

Lemma output_starts (now : time.Time) (events : list Event) :
  map Start (calculateSessions now events) = map Timestamp (filter opens events).
Proof.
  rewrite <- loop_starts. unfold calculateSessions, finish.
  destruct (sessionStart (loop events)) as [opened|].
  - rewrite map_app. reflexivity.
  - rewrite app_nil_r. reflexivity.
Qed.

(** X1. [calculateSessions] returns exactly one session per Boot or Resume
    event, in order: the starts of the sessions are the timestamps of those
    events, and there are as many sessions as such events. No opener is
    lost, whatever the order of the events. *)
Theorem session_starts (now : time.Time) (events : list Event) :
  map Start (calculateSessions now events) = map Timestamp (filter opens events) /\
  List.length (calculateSessions now events) = List.length (filter opens events).
Proof.
  split; [apply output_starts|].
  rewrite <- (length_map Start), output_starts, length_map. reflexivity.
Qed.

(** ** The reconstructor: what a session record holds *)

Lemma step_extends (st : LoopState) (e : Event) :
  exists more, sessions (step st e) = sessions st ++ more /\
    Forall (fun s =>
              End_ s = Timestamp e /\ consumed e = true /\
              Duration s = time.Sub (End_ s) (Start s)) more.
Proof.
  destruct st as [ss o ty]. unfold step, consumed. simpl.
  destruct (isOpener (EType e)) eqn:Ho; simpl.
  - destruct o as [opened|].
    + eexists. split; [reflexivity|]. repeat constructor.
    + exists []. rewrite app_nil_r. split; [reflexivity | constructor].
  - destruct (isCloser (EType e)) eqn:Hc.
    + destruct o as [opened|]; simpl.
      * eexists. split; [reflexivity|]. repeat constructor.
      * exists []. rewrite app_nil_r. split; [reflexivity | constructor].
    + exists []. rewrite app_nil_r. split; [reflexivity | constructor].
Qed.

Lemma run_extends (post : list Event) :
  forall st, exists more,
    sessions (fold_left step post st) = sessions st ++ more /\
    Forall (fun s =>
              (exists e, In e post /\ consumed e = true /\ End_ s = Timestamp e) /\
              Duration s = time.Sub (End_ s) (Start s)) more.
Proof.
  induction post as [|e post IH]; intros st; simpl.
  - exists []. rewrite app_nil_r. split; [reflexivity | constructor].
  - destruct (IH (step st e)) as (more2 & -> & H2).
    destruct (step_extends st e) as (more1 & -> & H1).
    exists (more1 ++ more2). rewrite app_assoc. split; [reflexivity|].
    apply Forall_app; split.
    + eapply Forall_impl; [|exact H1]. intros s (He & Hc & Hd).
      split; [|exact Hd]. exists e. auto.
    + eapply Forall_impl; [|exact H2]. intros s ((e' & Hin & Hc & He) & Hd).
      split; [|exact Hd]. exists e'. auto.
Qed.

Lemma finish_extends (now : time.Time) (st : LoopState) :
  exists tail, finish now st = sessions st ++ tail /\
    Forall (fun s => stillActive s = true -> End_ s = now) tail /\
    Forall (fun s => End_ s = now /\ Duration s = time.Sub (End_ s) (Start s)) tail.
Proof.
  unfold finish. destruct (sessionStart st) as [opened|].
  - eexists. split; [reflexivity|]. split; repeat constructor.
  - exists []. rewrite app_nil_r. repeat constructor.
Qed.

(** X2. Every session [calculateSessions] returns carries, as its duration,
    the saturated difference [End.Sub(Start)], a value of the [int64]
    range; and its end is [now] or the timestamp of an event of the input
    that one of the two [case]s takes. *)
Theorem session_records (now : time.Time) (events : list Event) :
  Forall (fun s =>
            Duration s = time.Sub (End_ s) (Start s) /\
            time.inRange (Duration s) /\
            (End_ s = now \/
             exists e, In e events /\ consumed e = true /\ End_ s = Timestamp e))
         (calculateSessions now events).
Proof.
  unfold calculateSessions, loop.
  destruct (run_extends events initState) as (more & Hrun & Hmore).
  destruct (finish_extends now (fold_left step events initState)) as (tail & -> & _ & Htail).
  rewrite Hrun. simpl. apply Forall_app; split.
  - eapply Forall_impl; [|exact Hmore]. intros s (He & Hd).
    rewrite Hd. split; [reflexivity|]. split; [apply Sub_inRange | right; exact He].
  - eapply Forall_impl; [|exact Htail]. intros s (He & Hd).
    rewrite Hd. split; [reflexivity|]. split; [apply Sub_inRange | left; exact He].
Qed.

(** X3. Sessions once written are final: the sessions the loop has
    appended after a prefix of the events are a prefix of the result on any
    longer stream. *)
Theorem sessions_stable (now : time.Time) (pre post : list Event) :
  exists more,
    calculateSessions now (pre ++ post) = sessions (loop pre) ++ more.
Proof.
  unfold calculateSessions, loop. rewrite fold_left_app.
  destruct (run_extends post (fold_left step pre initState)) as (more & Hrun & _).
  destruct (finish_extends now (fold_left step post (fold_left step pre initState)))
    as (tail & -> & _).
  rewrite Hrun. exists (more ++ tail). rewrite app_assoc. reflexivity.
Qed.

(** X4. The label of a session is one of twelve: "boot" or "resume", the
    arrow, then one of the five event kinds or "(still active)". *)
Theorem session_labels (now : time.Time) (events : list Event) :
  Forall (fun s => In (SType s) sessionLabels) (calculateSessions now events).
Proof.
  unfold calculateSessions, finish.
  assert (Hloop : Forall (fun s => In (SType s) sessionLabels) (sessions (loop events))).
  { eapply Forall_impl; [|apply loop_labels].
    intros s (k & t & Hk%isOpener_cases & Ht & ->).
    destruct Ht as [Ht%isOpener_cases | Ht%isCloser_cases];
      intuition (subst; simpl; tauto). }
  pose proof (loop_kindInv events) as Hk. unfold kindInv in Hk.
  destruct (sessionStart (loop events)) as [opened|]; [|exact Hloop].
  apply Forall_app; split; [exact Hloop|].
  constructor; [|constructor]. simpl.
  destruct Hk as [Hop ->]. apply isOpener_cases in Hop.
  destruct Hop as [-> | ->]; simpl; tauto.
Qed.

(** X5. Events of a kind other than the five are skipped: the result is
    the same without them. *)
Theorem unknown_kinds_ignored (now : time.Time) (events : list Event) :
  calculateSessions now events = calculateSessions now (filter consumed events).
Proof.
  unfold calculateSessions, loop. f_equal.
  generalize initState.
  induction events as [|e events IH]; intros st; simpl; [reflexivity|].
  destruct (consumed e) eqn:Hc; simpl.
  - apply IH.
  - rewrite <- IH. f_equal.
    unfold consumed in Hc. apply orb_false_iff in Hc. destruct Hc as [Ho Hc].
    unfold step. rewrite Ho, Hc. reflexivity.
Qed.

(** ** Uptime on a chronological stream *)

Lemma Sub_le_diff (t u : time.Time) : u <= t -> time.Sub t u <= t - u.
Proof.
  intros Hle.
  destruct (Sub_cases t u) as [[H ->] | [[H ->] | [_ ->]]];
    rewrite ?minDuration_eq, ?maxDuration_eq in *; lia.
Qed.

Lemma last_cons_default {A : Type} (l : list A) :
  forall a d, last (a :: l) d = last l a.
Proof.
  induction l as [|b l IH]; intros a d; [reflexivity|].
  change (last (a :: b :: l) d) with (last (b :: l) d).
  rewrite IH. symmetry. apply IH.
Qed.

(** Sessions that follow one another fit between the first start and the
    last end. *)
Lemma chain_sum (l : list Session) :
  Sorted follows l ->
  Forall (fun s => 0 <= Duration s <= End_ s - Start s) l ->
  forall s0 rest, l = s0 :: rest ->
    0 <= sumDurations l <= End_ (last rest s0) - Start s0.
Proof.
  induction 1 as [|s l Hs IH Hhd]; intros Hall s0 rest Heq; [discriminate|].
  injection Heq as <- <-.
  inversion Hall as [|? ? Hd Hall']; subst.
  destruct l as [|s' l'].
  - simpl. lia.
  - specialize (IH Hall' s' l' eq_refl).
    inversion Hhd as [|? ? [Hfollow _]]; subst.
    rewrite last_cons_default.
    change (sumDurations (s :: s' :: l'))
      with (Duration s + sumDurations (s' :: l')).
    lia.
Qed.

(** On a chronological stream no later than [now], the output is chained,
    every session runs forwards for at least its recorded duration, and
    none ends after [now]. *)
Lemma output_chain (now : time.Time) (events : list Event) :
  chronological events ->
  Forall (fun e => Timestamp e <= now) events ->
  Sorted follows (calculateSessions now events) /\
  Forall (fun s => 0 <= Duration s <= End_ s - Start s /\ End_ s <= now)
         (calculateSessions now events).
Proof.
  intros Hsorted Hnow.
  pose proof (loop_chainInv events Hsorted) as I.
  rewrite Forall_forall in Hnow.
  assert (Hloop : Forall (fun s => 0 <= Duration s <= End_ s - Start s /\ End_ s <= now)
                         (sessions (loop events))).
  { destruct (run_extends events initState) as (more & Hrun & Hmore).
    simpl in Hrun. fold (loop events) in Hrun.
    pose proof (inv_wf _ _ I) as Hwf. rewrite Hrun in *.
    rewrite Forall_forall in *. intros s Hin.
    destruct (Hmore s Hin) as ((e & He & _ & Hend) & Hd).
    destruct (Hwf s Hin) as [Hle Hpos].
    split; [split; [exact Hpos | rewrite Hd; apply Sub_le_diff, Hle]|].
    rewrite Hend. apply Hnow, He. }
  unfold calculateSessions, finish.
  destruct (sessionStart (loop events)) as [opened|] eqn:Hopen.
  - split.
    + apply (chainInv_append _ opened); [exact I | exact Hopen | reflexivity].
    + apply Forall_app; split; [exact Hloop|].
      apply loop_open_In, Hnow in Hopen.
      constructor; [|constructor]. simpl.
      split; [split; [apply Sub_nonneg | apply Sub_le_diff]|]; lia.
  - split; [apply I | exact Hloop].
Qed.

(** X6. On events that are non-decreasing by timestamp and not later than
    [now], the durations of the sessions add up to no more than the time
    from the first session's start to [now]: reported uptime never exceeds
    elapsed time. *)
Theorem uptime_bounded (now : time.Time) (events : list Event)
    (s0 : Session) (rest : list Session) :
  chronological events ->
  Forall (fun e => Timestamp e <= now) events ->
  calculateSessions now events = s0 :: rest ->
  0 <= sumDurations (s0 :: rest) <= now - Start s0.
Proof.
  intros Hsorted Hnow Hout.
  destruct (output_chain now events Hsorted Hnow) as [Hchain Hall].
  rewrite Hout in *.
  assert (Hd : Forall (fun s => 0 <= Duration s <= End_ s - Start s) (s0 :: rest)).
  { eapply Forall_impl; [|exact Hall]. intros s H. apply H. }
  pose proof (chain_sum _ Hchain Hd s0 rest eq_refl) as Hsum.
  assert (Hlast : End_ (last rest s0) <= now).
  { rewrite Forall_forall in Hall. apply Hall.
    rewrite <- (last_cons_default rest s0 s0).
    destruct (@exists_last _ (s0 :: rest) ltac:(discriminate)) as (l' & x & Hx).
    rewrite Hx, last_last. apply in_or_app. right. left. reflexivity. }
  lia.
Qed.

Lemma uptime_bounded_witness :
  chronological [boot8; suspend9; resume9; shutdown18] /\
  Forall (fun e => Timestamp e <= at_ 19 0) [boot8; suspend9; resume9; shutdown18] /\
  0 <= 10 * time.Hour <= at_ 19 0 - at_ 8 0.
Proof.
  assert (Hc : chronological [boot8; suspend9; resume9; shutdown18]).
  { intros [|[|[|[|i]]]] a b Ha Hb; simpl in *; try discriminate;
      injection Ha as <-; injection Hb as <-; simpl; discriminate. }
  assert (Hn : Forall (fun e => Timestamp e <= at_ 19 0)
                      [boot8; suspend9; resume9; shutdown18]).
  { repeat constructor; simpl; discriminate. }
  split; [exact Hc|]. split; [exact Hn|].
  exact (uptime_bounded (at_ 19 0) [boot8; suspend9; resume9; shutdown18] _ _
           Hc Hn eq_refl).
Defined.

(** ** The summary, further *)

Lemma sum_bounds (l : list Session) (lo hi : Z) :
  (forall x, In x l -> lo <= Duration x <= hi) ->
  Z.of_nat (List.length l) * lo <= sumDurations l <= Z.of_nat (List.length l) * hi.
Proof.
  induction l as [|s l IH]; intros H.
  - simpl. lia.
  - assert (Hs : lo <= Duration s <= hi) by (apply H; left; reflexivity).
    assert (Hl : forall x, In x l -> lo <= Duration x <= hi)
      by (intros x Hx; apply H; right; exact Hx).
    specialize (IH Hl).
    change (sumDurations (s :: l)) with (Duration s + sumDurations l).
    change (List.length (s :: l)) with (S (List.length l)).
    rewrite Nat2Z.inj_succ. lia.
Qed.

(** What [displaySummary] returns on a non-empty slice, field by field. *)
Lemma displaySummary_cons (s0 : Session) (rest : list Session) :
  displaySummary (s0 :: rest) =
  Some {| count := S (List.length rest);
          totalDuration := time.wrap64 (sumDurations (s0 :: rest));
          avgDuration := Z.quot (time.wrap64 (sumDurations (s0 :: rest)))
                                (Z.of_nat (S (List.length rest)));
          longest := fst (fold_left pick rest (s0, s0));
          shortest := snd (fold_left pick rest (s0, s0)) |}.
Proof.
  assert (Ht : fold_left addDuration (s0 :: rest) 0
               = time.wrap64 (sumDurations (s0 :: rest))).
  { exact (total_wrap (s0 :: rest) 0). }
  unfold displaySummary. rewrite Ht.
  destruct (fold_left pick rest (s0, s0)) as [lg sh]. reflexivity.
Qed.

(** X7. When the sum of the durations fits an [int64], the average
    [displaySummary] computes lies between the duration of the shortest
    session and that of the longest one it selects. *)
Theorem average_between (l : list Session) (sm : Summary) :
  time.inRange (sumDurations l) ->
  displaySummary l = Some sm ->
  Duration (shortest sm) <= avgDuration sm <= Duration (longest sm).
Proof.
  intros Hr Hsm. destruct l as [|s0 rest]; [discriminate|].
  rewrite displaySummary_cons, (wrap64_small _ Hr) in Hsm.
  injection Hsm as <-. cbn [shortest avgDuration longest].
  destruct (pick_scan rest [s0] s0 s0 (firstMax_single s0) (firstMin_single s0))
    as [(i & _ & Hmax & _) (j & _ & Hmin & _)].
  simpl app in Hmax, Hmin.
  set (lg := fst (fold_left pick rest (s0, s0))) in *.
  set (sh := snd (fold_left pick rest (s0, s0))) in *.
  pose proof (sum_bounds (s0 :: rest) (Duration sh) (Duration lg)) as Hb.
  change (List.length (s0 :: rest)) with (S (List.length rest)) in Hb.
  set (n := Z.of_nat (S (List.length rest))) in *.
  assert (Hn : 0 < n) by (subst n; lia).
  destruct Hb as [Hlo Hhi]; [intros x Hx; split; auto|].
  change (sumDurations (s0 :: rest)) with (Duration s0 + sumDurations rest) in *.
  split.
  - rewrite <- (Z.quot_mul (Duration sh) n) by lia.
    apply Z.quot_le_mono; lia.
  - rewrite <- (Z.quot_mul (Duration lg) n) by lia.
    apply Z.quot_le_mono; lia.
Qed.

Lemma average_between_witness :
  let l := [ mkSession (at_ 8 0) (at_ 9 0) time.Hour "boot → suspend";
             mkSession (at_ 10 0) (at_ 12 0) (2 * time.Hour) "resume → shutdown" ] in
  time.inRange (sumDurations l) /\
  time.Hour <= 90 * time.Minute <= 2 * time.Hour.
Proof.
  intros l.
  assert (Hr : time.inRange (sumDurations l)) by (split; discriminate).
  split; [exact Hr|].
  exact (average_between l _ Hr eq_refl).
Defined.

(** X8. For the sessions of a chronological stream not later than [now]
    whose first session started less than [maxDuration] (some 292 years)
    before [now], [displaySummary] does not overflow: the total is the
    exact sum of the durations, it is non-negative and at most the time
    from that start to [now]. *)
Theorem summary_exact (now : time.Time) (events : list Event)
    (s0 : Session) (rest : list Session) :
  chronological events ->
  Forall (fun e => Timestamp e <= now) events ->
  calculateSessions now events = s0 :: rest ->
  now - Start s0 <= time.maxDuration ->
  exists sm,
    displaySummary (calculateSessions now events) = Some sm /\
    totalDuration sm = sumDurations (calculateSessions now events) /\
    0 <= totalDuration sm <= now - Start s0.
Proof.
  intros Hsorted Hnow Hout Hspan.
  destruct (output_chain now events Hsorted Hnow) as [Hchain Hall].
  rewrite Hout in *.
  assert (Hd : Forall (fun s => 0 <= Duration s <= End_ s - Start s) (s0 :: rest)).
  { eapply Forall_impl; [|exact Hall]. intros s H. apply H. }
  pose proof (chain_sum _ Hchain Hd s0 rest eq_refl) as Hsum.
  assert (Hlast : End_ (last rest s0) <= now).
  { rewrite Forall_forall in Hall. apply Hall.
    rewrite <- (last_cons_default rest s0 s0).
    destruct (@exists_last _ (s0 :: rest) ltac:(discriminate)) as (l' & x & Hx).
    rewrite Hx, last_last. apply in_or_app. right. left. reflexivity. }
  assert (Hr : time.inRange (sumDurations (s0 :: rest))).
  { unfold time.inRange. rewrite minDuration_eq. lia. }
  eexists. split; [apply displaySummary_cons|].
  cbn [totalDuration]. rewrite (wrap64_small _ Hr). split; [reflexivity | lia].
Qed.

Lemma summary_exact_witness :
  chronological [boot8; suspend9; resume9; shutdown18] /\
  Forall (fun e => Timestamp e <= at_ 19 0) [boot8; suspend9; resume9; shutdown18] /\
  at_ 19 0 - at_ 8 0 <= time.maxDuration /\
  exists sm,
    displaySummary (calculateSessions (at_ 19 0) [boot8; suspend9; resume9; shutdown18])
      = Some sm /\
    totalDuration sm = 10 * time.Hour.
Proof.
  assert (Hc : chronological [boot8; suspend9; resume9; shutdown18]).
  { intros [|[|[|[|i]]]] a b Ha Hb; simpl in *; try discriminate;
      injection Ha as <-; injection Hb as <-; simpl; discriminate. }
  assert (Hn : Forall (fun e => Timestamp e <= at_ 19 0)
                      [boot8; suspend9; resume9; shutdown18]).
  { repeat constructor; simpl; discriminate. }
  assert (Hs : at_ 19 0 - at_ 8 0 <= time.maxDuration) by discriminate.
  split; [exact Hc|]. split; [exact Hn|]. split; [exact Hs|].
  destruct (summary_exact (at_ 19 0) [boot8; suspend9; resume9; shutdown18] _ _
              Hc Hn eq_refl Hs) as (sm & Hsm & Htot & _).
  exists sm. split; [exact Hsm | exact Htot].
Defined.

(** ** Deduplication, further *)

Lemma scanFrom_no_repeat (l : list Event) :
  forall x, Sorted (fun a b => isRepeat a b = false) (x :: scanFrom isRepeat x l).
Proof.
  induction l as [|e l IH]; intros x; simpl.
  - repeat constructor.
  - destruct (isRepeat x e) eqn:Hr; [apply IH|].
    constructor; [apply IH | constructor; exact Hr].
Qed.

Lemma isRepeat_false (a b : Event) :
  isRepeat a b = false ->
  EType b <> EType a \/ 2 * time.Minute <= Timestamp b - Timestamp a.
Proof.
  unfold isRepeat. rewrite Sub_lt_2min.
  intros [H%String.eqb_neq | H%Z.ltb_ge]%andb_false_iff; auto.
Qed.

(** X9. In the list [deduplicateEvents] returns, an event never repeats
    the one before it: two neighbours differ in kind, or the second is at
    least two minutes later than the first. *)
Theorem dedup_neighbours (events : list Event) (i : nat) (a b : Event) :
  nth_error (deduplicateEvents events) i = Some a ->
  nth_error (deduplicateEvents events) (S i) = Some b ->
  EType b <> EType a \/ 2 * time.Minute <= Timestamp b - Timestamp a.
Proof.
  intros Ha Hb. apply isRepeat_false.
  destruct events as [|first rest]; [destruct i; discriminate|].
  rewrite dedup_scan in Ha, Hb.
  exact (Sorted_nth _ _ (scanFrom_no_repeat rest first) i a b Ha Hb).
Qed.

Lemma dedup_neighbours_witness :
  let far := {| Timestamp := at_ 9 2; EType := "suspend" |} in
  nth_error (deduplicateEvents [suspend9; suspend901; far]) 0 = Some suspend9 /\
  nth_error (deduplicateEvents [suspend9; suspend901; far]) 1 = Some far /\
  (EType far <> EType suspend9 \/
   2 * time.Minute <= Timestamp far - Timestamp suspend9).
Proof.
  intros far. split; [reflexivity|]. split; [reflexivity|].
  exact (dedup_neighbours [suspend9; suspend901; far] 0 suspend9 far eq_refl eq_refl).
Defined.

Lemma scanFrom_subseq (r : Event -> Event -> bool) (l : list Event) :
  forall x, subseq (scanFrom r x l) l.
Proof.
  induction l as [|e l IH]; intros x; simpl; [constructor|].
  destruct (r x e); [apply subseq_skip | apply subseq_keep]; apply IH.
Qed.

Lemma subseq_In {A : Type} (l1 l2 : list A) :
  subseq l1 l2 -> forall x, In x l1 -> In x l2.
Proof.
  induction 1 as [|y l1 l2 _ IH|y l1 l2 _ IH]; intros x Hx; simpl in *.
  - exact Hx.
  - right. apply IH, Hx.
  - destruct Hx as [-> | Hx]; [left; reflexivity | right; apply IH, Hx].
Qed.

Lemma dedup_subseq (events : list Event) : subseq (deduplicateEvents events) events.
Proof.
  destruct events as [|first rest]; [constructor|].
  rewrite dedup_scan. apply subseq_keep, scanFrom_subseq.
Qed.

(** X10. [deduplicateEvents] only leaves events out: its result is the
    input with some events removed, in the same order, and it starts with
    the same event. *)
Theorem dedup_keeps_order (events : list Event) :
  subseq (deduplicateEvents events) events /\
  hd_error (deduplicateEvents events) = hd_error events.
Proof.
  split; [apply dedup_subseq|].
  destruct events as [|first rest]; [reflexivity|].
  rewrite dedup_scan. reflexivity.
Qed.

Lemma isRepeat_kind (x e : Event) : isRepeat x e = true -> EType e = EType x.
Proof.
  unfold isRepeat. intros [H _]%andb_true_iff. apply String.eqb_eq, H.
Qed.

Lemma collapse_cons_eq (k : string) (l : list string) :
  collapse (k :: k :: l) = collapse (k :: l).
Proof.
  change (collapse (k :: k :: l))
    with (if (k =? k)%string then collapse (k :: l) else k :: collapse (k :: l)).
  rewrite String.eqb_refl. reflexivity.
Qed.

Lemma scanFrom_collapse (l : list Event) :
  forall x,
    collapse (EType x :: map EType (scanFrom isRepeat x l))
    = collapse (EType x :: map EType l).
Proof.
  induction l as [|e l IH]; intros x; [reflexivity|].
  cbn [scanFrom map].
  destruct (isRepeat x e) eqn:Hr.
  - rewrite (isRepeat_kind _ _ Hr), collapse_cons_eq. apply IH.
  - cbn [map].
    change (collapse (EType x :: EType e :: map EType (scanFrom isRepeat e l)))
      with (if (EType x =? EType e)%string
            then collapse (EType e :: map EType (scanFrom isRepeat e l))
            else EType x :: collapse (EType e :: map EType (scanFrom isRepeat e l))).
    change (collapse (EType x :: EType e :: map EType l))
      with (if (EType x =? EType e)%string
            then collapse (EType e :: map EType l)
            else EType x :: collapse (EType e :: map EType l)).
    rewrite IH. reflexivity.
Qed.

(** X11. [deduplicateEvents] never hides a change of kind: the sequence of
    kinds, with each run of equal kinds counted once, is the same before
    and after. *)
Theorem dedup_keeps_transitions (events : list Event) :
  collapse (map EType (deduplicateEvents events)) = collapse (map EType events).
Proof.
  destruct events as [|first rest]; [reflexivity|].
  rewrite dedup_scan. apply scanFrom_collapse.
Qed.

(** ** The normaliser as a whole *)

Lemma dedup_nil (events : list Event) : deduplicateEvents events = [] -> events = [].
Proof.
  destruct events as [|first rest]; [reflexivity|].
  rewrite dedup_scan. discriminate.
Qed.

Lemma scanFrom_kind (l : list Event) :
  forall x e, In e l ->
    exists e', In e' (x :: scanFrom isRepeat x l) /\ EType e' = EType e.
Proof.
  induction l as [|y l IH]; intros x e Hin; [destruct Hin|].
  simpl. destruct (isRepeat x y) eqn:Hr.
  - destruct Hin as [-> | Hin].
    + exists x. split; [left; reflexivity | symmetry; apply isRepeat_kind, Hr].
    + apply IH, Hin.
  - destruct Hin as [-> | Hin].
    + exists e. split; [right; left; reflexivity | reflexivity].
    + destruct (IH y e Hin) as (e' & He' & Hk).
      exists e'. split; [right; exact He' | exact Hk].
Qed.

(** Every kind met in the input is still met in the output. *)
Lemma dedup_kind (events : list Event) (e : Event) :
  In e events ->
  exists e', In e' (deduplicateEvents events) /\ EType e' = EType e.
Proof.
  destruct events as [|first rest]; [intros []|].
  rewrite dedup_scan. intros [-> | Hin].
  - exists e. split; [left; reflexivity | reflexivity].
  - apply scanFrom_kind, Hin.
Qed.

Section NormalizeFacts.

Variable sortSlice : (Event -> Event -> bool) -> list Event -> list Event.
Hypothesis sortSlice_sorts : sortsSlices sortSlice.

Lemma sortSlice_perm (events : list Event) :
  Permutation events (sortSlice byTimestamp events).
Proof. apply (sortSlice_sorts byTimestamp byTimestamp_asym byTimestamp_trans). Qed.

Lemma normalize_In (events : list Event) (e : Event) :
  In e (normalize sortSlice events) -> In e events.
Proof.
  intros He. apply (Permutation_in _ (Permutation_sym (sortSlice_perm events))).
  exact (subseq_In _ _ (dedup_subseq _) e He).
Qed.

Lemma normalize_kind (events : list Event) (e : Event) :
  In e events ->
  exists e', In e' (normalize sortSlice events) /\ EType e' = EType e.
Proof.
  intros He. apply dedup_kind, (Permutation_in _ (sortSlice_perm events)), He.
Qed.

Lemma normalize_nil (events : list Event) :
  normalize sortSlice events = [] <-> events = [].
Proof.
  pose proof (sortSlice_perm events) as Hperm. unfold normalize. split.
  - intros H%dedup_nil. rewrite H in Hperm.
    apply Permutation_sym, Permutation_nil in Hperm. exact Hperm.
  - intros ->. apply Permutation_nil in Hperm. rewrite Hperm. reflexivity.
Qed.

End NormalizeFacts.

(** X12. Sorting and deduplicating invents no event and empties no list:
    every event of the result is an event of the input, every kind of the
    input is still present, and the result is empty only for an empty
    input. *)
Theorem normalize_sound
    (sortSlice : (Event -> Event -> bool) -> list Event -> list Event)
    (events : list Event) :
  sortsSlices sortSlice ->
  (forall e, In e (normalize sortSlice events) -> In e events) /\
  (forall e, In e events ->
     exists e', In e' (normalize sortSlice events) /\ EType e' = EType e) /\
  (normalize sortSlice events = [] <-> events = []).
Proof.
  intros Hsort. split; [|split].
  - intros e. apply normalize_In, Hsort.
  - intros e. apply normalize_kind, Hsort.
  - apply normalize_nil, Hsort.
Qed.

Lemma normalize_sound_witness :
  sortsSlices insertionSort /\
  normalize insertionSort [suspend901; boot8; suspend9] = [boot8; suspend9] /\
  In suspend9 [suspend901; boot8; suspend9].
Proof.
  split; [exact insertionSort_sortsSlices|]. split; [reflexivity|].
  apply (proj1 (normalize_sound insertionSort [suspend901; boot8; suspend9]
                  insertionSort_sortsSlices)).
  right. left. reflexivity.
Defined.

(** ** Substrings *)

Lemma append_assoc (a b c : string) : (a +++ b) +++ c = a +++ b +++ c.
Proof.
  induction a as [|x a IH]; simpl; [reflexivity|]. rewrite IH. reflexivity.
Qed.

Lemma prefix_iff (a s : string) :
  prefix a s = true <-> exists r, s = a +++ r.
Proof.
  revert s. induction a as [|x a IH]; intros s.
  - split; [intros _; exists s; reflexivity|]. intros _. destruct s; reflexivity.
  - destruct s as [|y s]; simpl.
    + split; [discriminate | intros [r Hr]; discriminate].
    + destruct (ascii_dec x y) as [->|Hne].
      * rewrite IH. split; intros [r Hr]; exists r; [rewrite Hr | injection Hr as ->];
          reflexivity.
      * split; [discriminate|]. intros [r Hr]. injection Hr as -> _. congruence.
Qed.

Lemma Contains_iff (s sub : string) :
  Contains s sub = true <-> exists p r, s = p +++ sub +++ r.
Proof.
  induction s as [|c s IH]; cbn [Contains]; rewrite orb_true_iff.
  - split.
    + intros [H|H]; [|discriminate]. apply prefix_iff in H as [r Hr].
      exists EmptyString, r. exact Hr.
    + intros (p & r & H). left. apply prefix_iff.
      destruct p; [exists r; exact H | discriminate].
  - rewrite IH, prefix_iff. split.
    + intros [[r Hr] | (p & r & Hr)].
      * exists EmptyString, r. exact Hr.
      * exists (String c p), r. simpl. rewrite Hr. reflexivity.
    + intros (p & r & H). destruct p as [|x p].
      * left. exists r. exact H.
      * right. injection H as _ ->. exists p, r. reflexivity.
Qed.

(** A text that contains a phrase contains its endings. *)
Lemma Contains_tail (s a b : string) :
  Contains s (a +++ b) = true -> Contains s b = true.
Proof.
  rewrite !Contains_iff. intros (p & r & ->).
  exists (p +++ a), r. rewrite !append_assoc. reflexivity.
Qed.

(** ** Unit-activation lines *)

Lemma matchClasses_split (p : list (ascii -> bool)) :
  forall s m r, matchClasses p s = Some (m, r) ->
                s = m +++ r /\ String.length m = List.length p.
Proof.
  induction p as [|cl p IH]; intros s m r H; simpl in H.
  - injection H as <- <-. split; reflexivity.
  - destruct s as [|c s]; [discriminate|].
    destruct (cl c); [|discriminate].
    destruct (matchClasses p s) as [[m' r']|] eqn:Hm; [|discriminate].
    injection H as <- <-. destruct (IH s m' r' Hm) as [-> Hlen].
    split; [reflexivity | simpl; rewrite Hlen; reflexivity].
Qed.

Section UnitLines.

Variable Parse : string -> string -> option time.Time.

(** X13. On a line of the suspend unit, the test for "System Suspend"
    decides nothing and a finish outranks a start: with the timestamp
    matched and parsed, the line gives a Resume event if it contains
    "Finished System Suspend", else a Suspend event if it contains
    "Starting System Suspend", else nothing. Likewise for the hibernate
    unit, with a Hibernate event for its start. *)
Theorem unit_line_classified (line : string) :
  suspendLineEvents Parse line =
    match FindStringSubmatch line with
    | _ :: timestampStr :: _ =>
        match Parse isoLayout timestampStr with
        | Some timestamp =>
            if Contains line "Finished System Suspend"
            then [ {| Timestamp := timestamp; EType := "resume" |} ]
            else if Contains line "Starting System Suspend"
            then [ {| Timestamp := timestamp; EType := "suspend" |} ]
            else []
        | None => []
        end
    | _ => []
    end /\
  hibernateLineEvents Parse line =
    match FindStringSubmatch line with
    | _ :: timestampStr :: _ =>
        match Parse isoLayout timestampStr with
        | Some timestamp =>
            if Contains line "Finished System Hibernate"
            then [ {| Timestamp := timestamp; EType := "resume" |} ]
            else if Contains line "Starting System Hibernate"
            then [ {| Timestamp := timestamp; EType := "hibernate" |} ]
            else []
        | None => []
        end
    | _ => []
    end.
Proof.
  unfold suspendLineEvents, hibernateLineEvents, unitLineEvents. cbv zeta.
  split.
  - pose proof (Contains_tail line "Finished " "System Suspend") as Hf.
    pose proof (Contains_tail line "Starting " "System Suspend") as Hs.
    simpl append in Hf, Hs.
    destruct (FindStringSubmatch line) as [|m [|ts more]];
      [destruct (Contains line "System Suspend"); reflexivity .. |].
    destruct (Contains line "Finished System Suspend") eqn:Ef.
    + rewrite (Hf eq_refl). simpl. destruct (Parse isoLayout ts);
        [destruct (Contains line "Starting System Suspend")|]; reflexivity.
    + destruct (Contains line "Starting System Suspend") eqn:Es.
      * rewrite (Hs eq_refl). simpl. destruct (Parse isoLayout ts); reflexivity.
      * destruct (Contains line "System Suspend"); simpl;
          destruct (Parse isoLayout ts); reflexivity.
  - pose proof (Contains_tail line "Finished " "System Hibernate") as Hf.
    pose proof (Contains_tail line "Starting " "System Hibernate") as Hs.
    simpl append in Hf, Hs.
    destruct (FindStringSubmatch line) as [|m [|ts more]];
      [destruct (Contains line "System Hibernate"); reflexivity .. |].
    destruct (Contains line "Finished System Hibernate") eqn:Ef.
    + rewrite (Hf eq_refl). simpl. destruct (Parse isoLayout ts);
        [destruct (Contains line "Starting System Hibernate")|]; reflexivity.
    + destruct (Contains line "Starting System Hibernate") eqn:Es.
      * rewrite (Hs eq_refl). simpl. destruct (Parse isoLayout ts); reflexivity.
      * destruct (Contains line "System Hibernate"); simpl;
          destruct (Parse isoLayout ts); reflexivity.
Qed.

Lemma unitLine_event (filterPhrase startPhrase startKind finishPhrase line : string)
    (e : Event) :
  In e (unitLineEvents Parse filterPhrase startPhrase startKind finishPhrase line) ->
  unitLineEvents Parse filterPhrase startPhrase startKind finishPhrase line = [e] /\
  (EType e = startKind \/ EType e = "resume"%string) /\
  exists timestampStr rest,
    line = timestampStr +++ rest /\ String.length timestampStr = 25%nat /\
    Parse isoLayout timestampStr = Some (Timestamp e).
Proof.
  unfold unitLineEvents, FindStringSubmatch. cbv zeta.
  destruct (negb (Contains line filterPhrase)); [intros []|].
  destruct (matchClasses timestampClasses line) as [[m r]|] eqn:Hm; [|intros []].
  apply matchClasses_split in Hm as [Hline Hlen]. simpl in Hlen.
  destruct (Parse isoLayout m) as [t|] eqn:Hp; [|intros []].
  assert (Hts : exists timestampStr rest,
             line = timestampStr +++ rest /\ String.length timestampStr = 25%nat /\
             Parse isoLayout timestampStr = Some t)
    by (exists m, r; auto).
  destruct (Contains line finishPhrase); simpl.
  - intros [<- | []]. simpl. auto.
  - destruct (Contains line startPhrase); simpl; [|intros []].
    destruct (startKind =? "")%string; [intros []|].
    intros [<- | []]. simpl. auto.
Qed.

(** X14. A line gives [detectSuspendResume] at most one event. Its kind is
    "suspend" or "resume" for the suspend unit, "hibernate" or "resume" for
    the hibernate unit, and its timestamp is what [time.Parse] makes of the
    first 25 bytes of the line. *)
Theorem unit_line_event (line : string) (e : Event) :
  In e (suspendLineEvents Parse line ++ hibernateLineEvents Parse line) ->
  (EType e = "suspend" \/ EType e = "hibernate" \/ EType e = "resume")%string /\
  (List.length (suspendLineEvents Parse line) <= 1)%nat /\
  (List.length (hibernateLineEvents Parse line) <= 1)%nat /\
  exists timestampStr rest,
    line = timestampStr +++ rest /\ String.length timestampStr = 25%nat /\
    Parse isoLayout timestampStr = Some (Timestamp e).
Proof.
  intros Hin.
  assert (Hs : (List.length (suspendLineEvents Parse line) <= 1)%nat).
  { destruct (suspendLineEvents Parse line) as [|x l] eqn:E; [simpl; lia|].
    destruct (unitLine_event "System Suspend" "Starting System Suspend" "suspend"
                "Finished System Suspend" line x) as [H _].
    - fold (suspendLineEvents Parse line). rewrite E. left. reflexivity.
    - fold (suspendLineEvents Parse line) in H. rewrite E in H.
      injection H as ->. simpl. lia. }
  assert (Hh : (List.length (hibernateLineEvents Parse line) <= 1)%nat).
  { destruct (hibernateLineEvents Parse line) as [|x l] eqn:E; [simpl; lia|].
    destruct (unitLine_event "System Hibernate" "Starting System Hibernate" "hibernate"
                "Finished System Hibernate" line x) as [H _].
    - fold (hibernateLineEvents Parse line). rewrite E. left. reflexivity.
    - fold (hibernateLineEvents Parse line) in H. rewrite E in H.
      injection H as ->. simpl. lia. }
  apply in_app_or in Hin. destruct Hin as [Hin | Hin];
    apply unitLine_event in Hin as (_ & Hk & Hts);
    (split; [tauto | split; [exact Hs | split; [exact Hh | exact Hts]]]).
Qed.

End UnitLines.

Lemma unit_line_event_witness :
  In suspend9 (suspendLineEvents unitParse suspendRow
               ++ hibernateLineEvents unitParse suspendRow) /\
  suspendLineEvents unitParse resumeRow = [resume9] /\
  exists timestampStr rest,
    suspendRow = timestampStr +++ rest /\ String.length timestampStr = 25%nat /\
    unitParse isoLayout timestampStr = Some (at_ 9 0).
Proof.
  assert (Hin : In suspend9 (suspendLineEvents unitParse suspendRow
                             ++ hibernateLineEvents unitParse suspendRow))
    by (left; reflexivity).
  split; [exact Hin|]. split; [reflexivity|].
  exact (proj2 (proj2 (proj2 (unit_line_event unitParse suspendRow suspend9 Hin)))).
Defined.

(** ** The pipeline *)

Section Pipeline.

Variable Parse : string -> string -> option time.Time.

(** X15. The [len(parts) < 3] test of the boot loop never decides
    anything: a line it rejects has fewer than two spaces, and the pattern,
    which needs three, does not match on it. The body of the loop is the
    same without the test. *)
Theorem split_guard_redundant (now : time.Time) (line : string) :
  bootLineEvents Parse now line = bootLineUnguarded Parse now line.
Proof.
  unfold bootLineEvents, bootLineUnguarded. cbv zeta.
  destruct (FindAllString line) as [|d0 more] eqn:Hf.
  - destruct (List.length (SplitN line space 3) <? 3)%nat; reflexivity.
  - rewrite (matched_line_splits _ _ _ Hf). reflexivity.
Qed.

Lemma bootLine_kinds (now : time.Time) (line : string) (e : Event) :
  In e (bootLineEvents Parse now line) ->
  EType e = "boot"%string \/ EType e = "shutdown"%string.
Proof.
  unfold bootLineEvents. cbv zeta.
  destruct (List.length (SplitN line space 3) <? 3)%nat; [intros []|].
  destruct (FindAllString line) as [|d0 [|d1 more]]; try (intros []).
  destruct (Parse bootLayout d0); [|intros []].
  destruct (Parse bootLayout d1); [|intros []].
  intros [<- | Hin]; [left; reflexivity|].
  destruct (time.Before _ _); [|destruct Hin].
  destruct Hin as [<- | []]. right. reflexivity.
Qed.

Lemma bootEventsFrom_kinds (clock : nat -> time.Time) (lines : list string) :
  forall i e, In e (bootEventsFrom Parse clock i lines) ->
              EType e = "boot"%string \/ EType e = "shutdown"%string.
Proof.
  induction lines as [|line lines IH]; intros i e; simpl; [intros []|].
  intros [H | H]%in_app_or; [eapply bootLine_kinds, H | eapply IH, H].
Qed.

Lemma unitEvents_kinds (output : option (list string)) (e : Event) :
  In e (unitEvents (suspendLineEvents Parse) output)
  \/ In e (unitEvents (hibernateLineEvents Parse) output) ->
  (EType e = "suspend" \/ EType e = "hibernate" \/ EType e = "resume")%string.
Proof.
  unfold unitEvents. destruct output as [lines|]; [|intros [[] | []]].
  intros [H | H]; apply in_flat_map in H as (line & _ & H);
    apply unitLine_event in H as (_ & Hk & _); tauto.
Qed.

Lemma raw_kinds (clock : nat -> time.Time) (output : list string)
    (suspendOutput hibernateOutput : option (list string)) (e : Event) :
  In e (bootEvents Parse clock output
        ++ detectSuspendResume Parse suspendOutput hibernateOutput) ->
  consumed e = true.
Proof.
  unfold bootEvents, detectSuspendResume, consumed.
  intros [H | [H | H]%in_app_or]%in_app_or.
  - apply bootEventsFrom_kinds in H as [-> | ->]; reflexivity.
  - destruct (unitEvents_kinds suspendOutput e (or_introl H)) as [-> | [-> | ->]];
      reflexivity.
  - destruct (unitEvents_kinds hibernateOutput e (or_intror H)) as [-> | [-> | ->]];
      reflexivity.
Qed.

Variable sortSlice : (Event -> Event -> bool) -> list Event -> list Event.
Hypothesis sortSlice_sorts : sortsSlices sortSlice.

(** X16. Every event [getSystemEvents] returns has one of the five kinds,
    so [calculateSessions] skips none of them; and each is an event one of
    the extractors produced. *)
Theorem journal_events_known (clock : nat -> time.Time)
    (bootOutput suspendOutput hibernateOutput : option (list string))
    (events : list Event) :
  journalEvents sortSlice Parse clock bootOutput suspendOutput hibernateOutput
    = Some events ->
  Forall (fun e => consumed e = true) events /\
  filter consumed events = events /\
  exists output,
    bootOutput = Some output /\
    forall e, In e events ->
      In e (bootEvents Parse clock output)
      \/ In e (detectSuspendResume Parse suspendOutput hibernateOutput).
Proof.
  unfold journalEvents, getSystemEvents.
  destruct bootOutput as [output|]; [|discriminate].
  intros [= <-].
  assert (Hall : Forall (fun e => consumed e = true)
                   (normalize sortSlice
                      (bootEvents Parse clock output
                       ++ detectSuspendResume Parse suspendOutput hibernateOutput))).
  { apply Forall_forall. intros e He.
    apply (normalize_In _ sortSlice_sorts) in He.
    eapply raw_kinds, He. }
  split; [exact Hall|]. split.
  - apply forallb_filter_id, forallb_forall. rewrite Forall_forall in Hall. exact Hall.
  - exists output. split; [reflexivity|].
    intros e He. apply (normalize_In _ sortSlice_sorts), in_app_or in He. exact He.
Qed.

Lemma existsb_opens_normalize (raw : list Event) :
  existsb opens (normalize sortSlice raw) = existsb opens raw.
Proof.
  apply eq_true_iff_eq. rewrite !existsb_exists. split.
  - intros (e & He & Ho). exists e. split; [|exact Ho].
    apply (normalize_In _ sortSlice_sorts), He.
  - intros (e & He & Ho).
    destruct (normalize_kind _ sortSlice_sorts raw e He) as (e' & He' & Hk).
    exists e'. split; [exact He'|]. unfold opens in *. rewrite Hk. exact Ho.
Qed.

Lemma output_nil (now : time.Time) (events : list Event) :
  calculateSessions now events = [] <-> existsb opens events = false.
Proof.
  pose proof (output_starts now events) as H.
  split.
  - intros Hnil. rewrite Hnil in H. simpl in H.
    symmetry in H. apply map_eq_nil in H.
    destruct (existsb opens events) eqn:He; [|reflexivity].
    apply existsb_exists in He as (e & Hin & Ho).
    assert (Hf : In e (filter opens events)) by (apply filter_In; auto).
    rewrite H in Hf. destruct Hf.
  - intros He.
    assert (Hf : filter opens events = []).
    { destruct (filter opens events) as [|e l] eqn:Hfl; [reflexivity|].
      assert (Hin : In e (filter opens events)) by (rewrite Hfl; left; reflexivity).
      apply filter_In in Hin as [Hin Ho].
      assert (existsb opens events = true) by (apply existsb_exists; eauto).
      congruence. }
    rewrite Hf in H. apply map_eq_nil in H. exact H.
Qed.

(** X17. The branch [main] ends in, read off the events the extractors
    produce: an error exactly when the boot list cannot be read; "No system
    events found." exactly when they produce none; "Cannot calculate work
    sessions." exactly when they produce some, none of them a Boot or a
    Resume; otherwise the sessions are displayed, and the summary is
    computed on at least one session, so its division is defined. *)
Theorem main_outcome (clock : nat -> time.Time) (now : time.Time)
    (bootOutput suspendOutput hibernateOutput : option (list string)) :
  let result :=
    main sortSlice Parse clock now bootOutput suspendOutput hibernateOutput in
  match bootOutput with
  | None => result = ExitError
  | Some output =>
      let raw := bootEvents Parse clock output
                 ++ detectSuspendResume Parse suspendOutput hibernateOutput in
      match raw with
      | [] => result = NoEvents
      | _ :: _ =>
          if existsb opens raw then
            exists sm,
              result = Displayed (calculateSessions now (normalize sortSlice raw))
                                 (Some sm) /\
              count sm = List.length (calculateSessions now (normalize sortSlice raw)) /\
              (1 <= count sm)%nat
          else result = NoSessions
      end
  end.
Proof.
  cbv zeta. unfold main, journalEvents, getSystemEvents.
  destruct bootOutput as [output|]; [|reflexivity].
  remember (bootEvents Parse clock output
            ++ detectSuspendResume Parse suspendOutput hibernateOutput) as raw eqn:Eraw.
  clear Eraw. destruct raw as [|e0 raw'].
  - rewrite (proj2 (normalize_nil _ sortSlice_sorts []) eq_refl). reflexivity.
  - pose proof (existsb_opens_normalize (e0 :: raw')) as Hex.
    destruct (normalize sortSlice (e0 :: raw')) as [|e events] eqn:Hn.
    { apply (proj1 (normalize_nil _ sortSlice_sorts _)) in Hn. discriminate Hn. }
    change (List.length (e :: events) =? 0)%nat with false. cbv iota.
    rewrite <- Hex.
    pose proof (output_nil now (e :: events)) as Hout.
    destruct (calculateSessions now (e :: events)) as [|s0 rest] eqn:Hs.
    + rewrite (proj1 Hout eq_refl). reflexivity.
    + destruct (existsb opens (e :: events)); [|destruct Hout as [_ H]; discriminate (H eq_refl)].
      change (List.length (s0 :: rest) =? 0)%nat with false. cbv iota.
      eexists. split; [rewrite displaySummary_cons; reflexivity|].
      simpl. split; [reflexivity | lia].
Qed.

End Pipeline.

Lemma main_outcome_witness :
  let header := "IDX BOOT ID FIRST ENTRY LAST ENTRY"%string in
  sortsSlices insertionSort /\
  (exists sm,
      main insertionSort scenarioParse (fun _ => at_ 18 2) (at_ 18 2)
           (Some [header; bootRow]) None None
      = Displayed [ {| Start := at_ 8 0; End_ := at_ 18 0; Duration := 10 * time.Hour;
                       SType := "boot → shutdown" |} ] (Some sm) /\
      count sm = 1%nat) /\
  main insertionSort scenarioParse (fun _ => at_ 18 2) (at_ 18 2)
       (Some [header]) None None = NoEvents.
Proof.
  intros header. split; [exact insertionSort_sortsSlices|]. split.
  - destruct (main_outcome scenarioParse insertionSort insertionSort_sortsSlices
                (fun _ => at_ 18 2) (at_ 18 2) (Some [header; bootRow]) None None)
      as (sm & Hm & Hc & _).
    exists sm. split; [exact Hm | exact Hc].
  - exact (main_outcome scenarioParse insertionSort insertionSort_sortsSlices
             (fun _ => at_ 18 2) (at_ 18 2) (Some [header]) None None).
Defined.

Lemma journal_events_known_witness :
  let header := "IDX BOOT ID FIRST ENTRY LAST ENTRY"%string in
  sortsSlices insertionSort /\
  journalEvents insertionSort scenarioParse (fun _ => at_ 18 2)
                (Some [header; bootRow]) None None = Some [boot8; shutdown18] /\
  Forall (fun e => consumed e = true) [boot8; shutdown18].
Proof.
  intros header. split; [exact insertionSort_sortsSlices|]. split; [reflexivity|].
  exact (proj1 (journal_events_known scenarioParse insertionSort insertionSort_sortsSlices
                  (fun _ => at_ 18 2) (Some [header; bootRow]) None None
                  [boot8; shutdown18] eq_refl)).
Defined.

(** ** The reconstructor on an alternating stream *)

Lemma run_pairs (pairs : list (Event * Event)) :
  Forall (fun p => isOpener (EType (fst p)) = true /\ isCloser (EType (snd p)) = true)
         pairs ->
  forall st, sessionStart st = None ->
    sessions (fold_left step (pairEvents pairs) st)
      = sessions st ++ map pairSession pairs /\
    sessionStart (fold_left step (pairEvents pairs) st) = None.
Proof.
  induction 1 as [|[o c] pairs [Ho Hc] _ IH]; intros st Hclosed.
  - simpl. rewrite app_nil_r. split; [reflexivity | exact Hclosed].
  - simpl in Ho, Hc.
    change (pairEvents ((o, c) :: pairs)) with (o :: c :: pairEvents pairs).
    cbn [fold_left].
    assert (Hstep : step (step st o) c =
                    {| sessions := sessions st ++ [pairSession (o, c)];
                       sessionStart := None;
                       sessionType := "" |}).
    { assert (Hno : isOpener (EType c) = false).
      { destruct (isOpener (EType c)) eqn:E; [|reflexivity].
        apply opener_not_closer in E. congruence. }
      assert (H1 : step st o = {| sessions := sessions st;
                                  sessionStart := Some o;
                                  sessionType := EType o |}).
      { unfold step. rewrite Ho, Hclosed, (opener_kind _ Ho). reflexivity. }
      rewrite H1. unfold step. rewrite Hno, Hc.
      cbn [sessionStart sessions sessionType].
      rewrite (closer_endType _ Hc). reflexivity. }
    rewrite Hstep.
    destruct (IH {| sessions := sessions st ++ [pairSession (o, c)];
                    sessionStart := None;
                    sessionType := "" |} eq_refl) as [Hs Hn].
    rewrite Hs, Hn. cbn [sessions map].
    rewrite <- app_assoc. split; reflexivity.
Qed.

(** X18. On a stream in which openers and closers alternate, starting
    with an opener, [calculateSessions] pairs them by adjacency: one
    session per pair, from the opener's timestamp to the closer's, labelled
    with the two kinds, and no other session. If one more opener follows
    the pairs, its still-active session comes last. *)
Theorem alternating_stream (now : time.Time) (pairs : list (Event * Event)) :
  Forall (fun p => isOpener (EType (fst p)) = true /\ isCloser (EType (snd p)) = true)
         pairs ->
  calculateSessions now (pairEvents pairs) = map pairSession pairs /\
  forall o, isOpener (EType o) = true ->
    calculateSessions now (pairEvents pairs ++ [o]) =
      map pairSession pairs
      ++ [ {| Start := Timestamp o; End_ := now;
              Duration := time.Sub now (Timestamp o);
              SType := EType o +++ " → (still active)" |} ].
Proof.
  intros Hp. destruct (run_pairs pairs Hp initState eq_refl) as [Hs Hn].
  fold (loop (pairEvents pairs)) in Hs, Hn. simpl in Hs.
  split.
  - unfold calculateSessions, finish. rewrite Hn. exact Hs.
  - intros o Ho. unfold calculateSessions, finish.
    rewrite loop_snoc. unfold step. rewrite Ho, Hn. cbn [sessionStart sessions sessionType].
    rewrite Hs, (opener_kind _ Ho). reflexivity.
Qed.

Lemma alternating_stream_witness :
  Forall (fun p => isOpener (EType (fst p)) = true /\ isCloser (EType (snd p)) = true)
         [(boot8, suspend9); (resume9, shutdown18)] /\
  calculateSessions (at_ 19 0) [boot8; suspend9; resume9; shutdown18] =
    [ {| Start := at_ 8 0; End_ := at_ 9 0; Duration := time.Hour;
         SType := "boot → suspend" |};
      {| Start := at_ 9 0; End_ := at_ 18 0; Duration := 9 * time.Hour;
         SType := "resume → shutdown" |} ].
Proof.
  assert (Hp : Forall (fun p => isOpener (EType (fst p)) = true
                                /\ isCloser (EType (snd p)) = true)
                      [(boot8, suspend9); (resume9, shutdown18)]).
  { repeat constructor. }
  split; [exact Hp|].
  exact (proj1 (alternating_stream (at_ 19 0) [(boot8, suspend9); (resume9, shutdown18)] Hp)).
Defined.
